(** * Sigma-Zero: the chess tensor codec of [chess_tensor.py]

    A shallow embedding of the board-state encoder ([ChessTensor]) and of
    the move/action-index codec ([actionToTensor], [actionsToTensor],
    [tensorToAction]), with the properties checked against it.

    Conventions of the model:
    - Python integers and tensor indices are [Z]; [//] and [%] are
      [Z.div] and [Z.modulo] (both floor, as in Python and torch);
    - a raised exception is [Err e] in the [Result] monad;
    - a Python [float] is an IEEE 754 binary64 number and an entry of a
      1-D tensor made by [torch.zeros(n)] a binary32 number, both written
      as a [spec_float]: storing a weight rounds it to binary32, [+=] is
      binary32 addition, [nonzero] tests against both zeros;
    - a boolean tensor of shape [C,8,8] is a [list (list (list bool))];
    - the rules engine ([python-chess]) is external: boards are reached
      through the [RulesEngine] interface, moves through [Move]. *)

From Stdlib Require Import ZArith QArith List String Ascii Lia Bool SpecFloat.
From stdpp Require Import base option list strings gmap.

Local Open Scope string_scope.
Local Open Scope list_scope.
Local Open Scope Z_scope.

(** ** Python exceptions as an error monad *)

Inductive PyError : Type :=
  | IndexError
  | KeyError
  | ValueError
  | InvalidMoveError.

Inductive Result (A : Type) : Type :=
  | Ok (a : A)
  | Err (e : PyError).

Arguments Ok {A} a.
Arguments Err {A} e.

#[global] Instance Result_ret : MRet Result := fun A a => Ok a.

#[global] Instance Result_bind : MBind Result := fun A B f r =>
  match r with
  | Ok a => f a
  | Err e => Err e
  end.

#[global] Instance Result_fmap : FMap Result := fun A B f r =>
  match r with
  | Ok a => Ok (f a)
  | Err e => Err e
  end.

Definition is_ok {A} (r : Result A) : bool :=
  match r with Ok _ => true | Err _ => false end.

(** ** Python sequence primitives *)

Module Py.

(** [s[i]] on a sequence of length [n]: a negative index in [-n, 0) counts
    from the end, anything else outside [0, n) raises [IndexError]. *)
Definition norm_index (n i : Z) : Result nat :=
  let j := if i <? 0 then i + n else i in
  if (0 <=? j) && (j <? n) then Ok (Z.to_nat j) else Err IndexError.

Definition str_getitem (s : string) (i : Z) : Result ascii :=
  j ← norm_index (Z.of_nat (String.length s)) i;
  match String.get j s with
  | Some a => Ok a
  | None => Err IndexError
  end.

Definition list_getitem {A} (l : list A) (i : Z) : Result A :=
  j ← norm_index (Z.of_nat (length l)) i;
  match l !! j with
  | Some a => Ok a
  | None => Err IndexError
  end.

(** [t[i] = v] on a list or 1-D tensor. *)
Definition list_setitem {A} (l : list A) (i : Z) (v : A) : Result (list A) :=
  j ← norm_index (Z.of_nat (length l)) i;
  Ok (<[j := v]> l).

(** [s[::-1]] *)
Definition str_reverse (s : string) : string := String.rev s.

Definition str_of_char (a : ascii) : string := String a EmptyString.

(** [c in s] for a one-character string [c]. *)
Fixpoint char_in (a : ascii) (s : string) : bool :=
  match s with
  | EmptyString => false
  | String b s' => Ascii.eqb a b || char_in a s'
  end.

(** [s.index(c)] for a one-character string [c]: [ValueError] when absent. *)
Fixpoint str_index_from (k : Z) (a : ascii) (s : string) : Result Z :=
  match s with
  | EmptyString => Err ValueError
  | String b s' => if Ascii.eqb a b then Ok k else str_index_from (k + 1) a s'
  end.

Definition str_index (s : string) (a : ascii) : Result Z := str_index_from 0 a s.

(** [l.index(x)] on a list of strings. *)
Fixpoint list_index_from (k : Z) (x : string) (l : list string) : Result Z :=
  match l with
  | [] => Err ValueError
  | y :: l' => if String.eqb x y then Ok k else list_index_from (k + 1) x l'
  end.

Definition list_index (l : list string) (x : string) : Result Z :=
  list_index_from 0 x l.

(** [s[a:b]] for [0 <= a <= b]. *)
Definition str_slice (s : string) (a b : nat) : string :=
  String.substring a (b - a) s.

(** [d[k]] on a dict literal with pair keys: [KeyError] when absent. *)
Fixpoint dict_getitem (d : list ((Z * Z) * Z)) (k : Z * Z) : Result Z :=
  match d with
  | [] => Err KeyError
  | ((a, b), v) :: d' =>
      if (a =? fst k) && (b =? snd k) then Ok v else dict_getitem d' k
  end.

(** [x / y == 1] with true division: the quotient of two integers is
    compared with one as a rational. *)
Definition truediv_is_one (x y : Z) : bool :=
  Qeq_bool (inject_Z x / inject_Z y) 1.

End Py.

(** ** The part of [python-chess] that the codec touches: [chess.Move] *)

Module Chess.

Inductive PieceType : Type := PAWN | KNIGHT | BISHOP | ROOK | QUEEN | KING.

(** [chess.PAWN = 1], ..., [chess.KING = 6] *)
Definition piece_code (p : PieceType) : Z :=
  match p with
  | PAWN => 1 | KNIGHT => 2 | BISHOP => 3 | ROOK => 4 | QUEEN => 5 | KING => 6
  end.

Definition piece_symbol (p : PieceType) : string :=
  match p with
  | PAWN => "p" | KNIGHT => "n" | BISHOP => "b"
  | ROOK => "r" | QUEEN => "q" | KING => "k"
  end.

Definition piece_of_symbol (a : ascii) : Result PieceType :=
  if Ascii.eqb a "p" then Ok PAWN
  else if Ascii.eqb a "n" then Ok KNIGHT
  else if Ascii.eqb a "b" then Ok BISHOP
  else if Ascii.eqb a "r" then Ok ROOK
  else if Ascii.eqb a "q" then Ok QUEEN
  else if Ascii.eqb a "k" then Ok KING
  else Err ValueError.

#[global] Instance PieceType_eq_dec : EqDecision PieceType.
Proof. solve_decision. Defined.

(** [chess.WHITE = True], [chess.BLACK = False] *)
Definition Color : Type := bool.
Definition WHITE : Color := true.
Definition BLACK : Color := false.

(** A move of standard chess: [drop] is always [None] and is left out. *)
Record Move : Type := mkMove {
  from_square : Z;
  to_square : Z;
  promotion : option PieceType
}.

#[global] Instance Move_eq_dec : EqDecision Move.
Proof. solve_decision. Defined.

Definition FILE_NAMES : list string := ["a"; "b"; "c"; "d"; "e"; "f"; "g"; "h"].
Definition RANK_NAMES : list string := ["1"; "2"; "3"; "4"; "5"; "6"; "7"; "8"].

(** [SQUARE_NAMES = [f + r for r in RANK_NAMES for f in FILE_NAMES]] *)
Definition SQUARE_NAMES : list string :=
  Eval cbv in
    List.flat_map (fun r => List.map (fun f => String.append f r) FILE_NAMES) RANK_NAMES.

(** [Move.uci]: the null move (all fields falsy) prints as ["0000"]. *)
Definition uci (m : Move) : Result string :=
  match promotion m with
  | Some p =>
      f ← Py.list_getitem SQUARE_NAMES (from_square m);
      t ← Py.list_getitem SQUARE_NAMES (to_square m);
      Ok (f +:+ t +:+ piece_symbol p)
  | None =>
      if (from_square m =? 0) && (to_square m =? 0) then Ok "0000"
      else
        f ← Py.list_getitem SQUARE_NAMES (from_square m);
        t ← Py.list_getitem SQUARE_NAMES (to_square m);
        Ok (f +:+ t)
  end.

(** [Move.from_uci], without the drop syntax of variants. *)
Definition from_uci (s : string) : Result Move :=
  if String.eqb s "0000" then Ok (mkMove 0 0 None)
  else
    let n := String.length s in
    if ((4 <=? n) && (n <=? 5))%nat then
      let parsed :=
        f ← Py.list_index SQUARE_NAMES (Py.str_slice s 0 2);
        t ← Py.list_index SQUARE_NAMES (Py.str_slice s 2 4);
        p ← (if (n =? 5)%nat
             then a ← Py.str_getitem s 4; Some <$> piece_of_symbol a
             else Ok None);
        Ok (f, t, p) in
      match parsed with
      | Ok (f, t, p) =>
          if f =? t then Err InvalidMoveError else Ok (mkMove f t p)
      | Err _ => Err InvalidMoveError
      end
    else Err InvalidMoveError.

End Chess.

Import Chess.

(** ** The action-space codec *)

(** ** Floating-point weights

    [spec_float] with its operations at precision 24 and maximal exponent
    128 is binary32, the default dtype of [torch.zeros]; at precision 53
    and maximal exponent 1024 it is binary64, the Python [float].  Rounding
    is to nearest, ties to even. *)

Module Float.

Abbreviation float64 := spec_float.
Abbreviation float32 := spec_float.

(** [float(n)] of a Python int within the range of a float, as the
    literal [1] is. *)
Definition of_int (n : Z) : float64 := binary_normalize 53 1024 n 0 false.

(** The binary32 value a tensor entry takes when a Python float is
    assigned to it: the nearest binary32 number, an infinity beyond the
    range, 0.0 below half the least subnormal. *)
Definition round32 (x : float64) : float32 :=
  match x with
  | S754_finite s m e => binary_round 24 128 s m e
  | _ => x
  end.

(** Addition of two tensor entries. *)
Definition add32 (x y : float32) : float32 := SFadd 24 128 x y.

Definition zero : float32 := S754_zero false.

(** [x == 0]: true of 0.0 and of -0.0, false of a NaN. *)
Definition is_zero (x : spec_float) : bool :=
  match x with
  | S754_zero _ => true
  | _ => false
  end.

(** The binary32 number of an integer. *)
Definition f32 (n : Z) : float32 := round32 (of_int n).

End Float.

Arguments Float.of_int : simpl never.
Arguments Float.round32 : simpl never.
Arguments Float.add32 : simpl never.
Arguments Float.f32 : simpl never.

(** A 1-D tensor: [torch.zeros(n)], [t.nonzero()], [t += u]. *)
Abbreviation Tensor1 := (list Float.float32).

Definition torch_zeros (n : nat) : Tensor1 := replicate n Float.zero.

Arguments torch_zeros : simpl never.

Fixpoint nonzero_from (i : Z) (t : Tensor1) : list Z :=
  match t with
  | [] => []
  | x :: t' =>
      if Float.is_zero x then nonzero_from (i + 1) t' else i :: nonzero_from (i + 1) t'
  end.

Definition nonzero (t : Tensor1) : list Z := nonzero_from 0 t.

Definition tensor_add (t u : Tensor1) : Tensor1 := zip_with Float.add32 t u.

(** The size of the action space, [8*8*73]. *)
Definition ACTIONS : nat := 4672.

(** The [dir] and [knight_moves] dict literals of [actionToTensor]. *)
Definition dir_dict : list ((Z * Z) * Z) :=
  [ ((0, -1), 0); ((1, -1), 1); ((1, 0), 2); ((1, 1), 3);
    ((0, 1), 4); ((-1, 1), 5); ((-1, 0), 6); ((-1, -1), 7) ].

Definition knight_dict : list ((Z * Z) * Z) :=
  [ ((1, -2), 0); ((2, -1), 1); ((2, 1), 2); ((1, 2), 3);
    ((-1, 2), 4); ((-2, 1), 5); ((-2, -1), 6); ((-1, -2), 7) ].

(** The [dir] and [knight_moves] list literals of [tensorToAction]. *)
Definition dir_list : list (Z * Z) :=
  [ (0, -1); (1, -1); (1, 0); (1, 1); (0, 1); (-1, 1); (-1, 0); (-1, -1) ].

Definition knight_list : list (Z * Z) :=
  [ (1, -2); (2, -1); (2, 1); (1, 2); (-1, 2); (-2, 1); (-2, -1); (-1, -2) ].

Definition check_polarity (val : Z) : Z :=
  if val >? 0 then 1 else if val <? 0 then -1 else 0.

(** The mover's frame: [(row, col, toRow, toCol)] of a move. *)
Definition frame (move : Move) (color : Color) : Z * Z * Z * Z :=
  let from_square := from_square move in
  let to_square := to_square move in
  if color
  then (7 - from_square / 8, from_square mod 8, 7 - to_square / 8, to_square mod 8)
  else (from_square / 8, 7 - from_square mod 8, to_square / 8, 7 - to_square mod 8).

(** The index that [actionToTensor] writes to: the body of the function up
    to the subscript of its single assignment to [moveTensor]. *)
Definition action_index (move : Move) (color : Color) : Result Z :=
  let '(row, col, toRow, toCol) := frame move color in
  if (toCol =? col) || (toRow =? row)
     || Py.truediv_is_one (Z.abs (toRow - row)) (Z.abs (toCol - col))
  then
    u ← uci move;
    last ← Py.str_getitem u (-1);
    if Py.char_in last "nbr" then
      i ← Py.str_index "nbr" last;
      let i := i * 3 in
      let i := if toCol >? col then i + 1
               else if toCol <? col then i + 2
               else i in
      Ok ((64 + i) * 8 * 8 + row * 8 + col)
    else
      let squares := Z.max (Z.abs (toRow - row)) (Z.abs (toCol - col)) in
      let direction := (check_polarity (toCol - col), check_polarity (toRow - row)) in
      d ← Py.dict_getitem dir_dict direction;
      Ok ((d * 7 + (squares - 1)) * 64 + row * 8 + col)
  else
    k ← Py.dict_getitem knight_dict (toCol - col, toRow - row);
    Ok ((56 + k) * 64 + row * 8 + col).

(** [prob] is a Python float; the default [1] is [Float.of_int 1].  The
    assignment to the float32 tensor rounds it. *)
Definition actionToTensor (move : Move) (color : Color) (prob : Float.float64)
    : Result Tensor1 :=
  let moveTensor := torch_zeros ACTIONS in
  idx ← action_index move color;
  Py.list_setitem moveTensor idx (Float.round32 prob).

(** [valid_moves] is a list (every weight is the default 1) or a dict from
    moves to float weights, iterated in insertion order. *)
Inductive ValidMoves : Type :=
  | MoveList (l : list Move)
  | MoveDict (d : list (Move * Float.float64)).

Definition valid_moves_items (v : ValidMoves) : list (Move * Float.float64) :=
  match v with
  | MoveList l => (fun m => (m, Float.of_int 1)) <$> l
  | MoveDict d => d
  end.


Definition actions_step (color : Color)
    (acc : Result (Tensor1 * gmap string bool)) (item : Move * Float.float64)
    : Result (Tensor1 * gmap string bool) :=
  '(actionTensor, queen_promotion) ← acc;
  let '(valid_move, prob) := item in
  queen_promotion ←
    (if decide (promotion valid_move = Some QUEEN)
     then u ← uci valid_move; Ok (<[u := true]> queen_promotion)
     else Ok queen_promotion);
  t ← actionToTensor valid_move color prob;
  Ok (tensor_add actionTensor t, queen_promotion).

Definition actionsToTensor (valid_moves : ValidMoves) (color : Color)
    : Result (Tensor1 * gmap string bool) :=
  foldl (actions_step color) (Ok (torch_zeros ACTIONS, ∅))
        (valid_moves_items valid_moves).

(** The coordinate string [lettering[col] + numbering[row] +
    lettering[toCol] + numbering[toRow]], built twice in [tensorToAction]. *)
Definition coords (lettering numbering : string) (col row toCol toRow : Z)
    : Result string :=
  a ← Py.str_getitem lettering col;
  b ← Py.str_getitem numbering row;
  c ← Py.str_getitem lettering toCol;
  d ← Py.str_getitem numbering toRow;
  Ok (String a (String b (String c (String d EmptyString)))).

Definition lettering_of (color : Color) : string :=
  let lettering := "abcdefgh" in
  if color then lettering else Py.str_reverse lettering.

Definition numbering_of (color : Color) : string :=
  let numbering := "12345678" in
  if color then Py.str_reverse numbering else numbering.

(** One iteration of the loop of [tensorToAction]; [get key] stands for
    [queen_promotion.get(key, False)]. *)
Definition decode_move (color : Color) (get : string -> bool) (move : Z)
    : Result Move :=
  let lettering := lettering_of color in
  let numbering := numbering_of color in
  let plane := move / 64 in
  let move := move mod 64 in
  let row := move / 8 in
  let col := move mod 8 in
  '(toCol, toRow, promotion) ←
    (if plane <? 56 then
       let direction := plane / 7 in
       let squares := 1 + plane mod 7 in
       d ← Py.list_getitem dir_list direction;
       let toCol := col + fst d * squares in
       let toRow := row + snd d * squares in
       key ← coords lettering numbering col row toCol toRow;
       if get (key +:+ "q")
       then Ok (toCol, toRow, "q")
       else Ok (toCol, toRow, EmptyString)
     else if plane <? 64 then
       let direction := plane - 56 in
       d ← Py.list_getitem knight_list direction;
       Ok (col + fst d, row + snd d, EmptyString)
     else
       let plane := plane - 64 in
       let toRow := row - 1 in
       let toCol := if plane mod 3 =? 1 then col + 1
                    else if plane mod 3 =? 2 then col - 1
                    else col in
       p ← Py.str_getitem "nbr" (plane / 3);
       Ok (toCol, toRow, Py.str_of_char p));
  s ← coords lettering numbering col row toCol toRow;
  from_uci (s +:+ promotion).

Definition dict_get_default (queen_promotion : gmap string bool) (key : string)
    : bool :=
  default false (queen_promotion !! key).

Definition tensorToAction (moves : Tensor1) (color : Color)
    (queen_promotion : gmap string bool) : Result (list Move) :=
  let moves := nonzero moves in
  foldl (fun acc move =>
           chess_moves ← acc;
           m ← decode_move color (dict_get_default queen_promotion) move;
           Ok (chess_moves ++ [m])%list)
        (Ok []) moves.

(** ** Moves that a position can offer

    Legality is decided by the rules engine.  What the codec relies on is
    the geometry of the moves the engine generates for mover [c]: squares
    on the board, a displacement along a queen line or a knight jump
    (castling is a king move along its rank, en passant a diagonal step),
    and a promotion piece exactly on a pawn step from the mover's seventh
    rank onto the eighth. *)

Definition on_board (sq : Z) : bool := (0 <=? sq) && (sq <? 64).

Definition square_file (sq : Z) : Z := sq mod 8.
Definition square_rank (sq : Z) : Z := sq / 8.

Definition queen_line (df dr : Z) : bool :=
  (df =? 0) || (dr =? 0) || (Z.abs df =? Z.abs dr).

Definition knight_jump (df dr : Z) : bool :=
  ((Z.abs df =? 1) && (Z.abs dr =? 2)) || ((Z.abs df =? 2) && (Z.abs dr =? 1)).

(** A displacement some piece can make: source and target differ and lie on
    a queen line or a knight jump apart. *)
Definition valid_displacement (m : Move) : bool :=
  let df := square_file (to_square m) - square_file (from_square m) in
  let dr := square_rank (to_square m) - square_rank (from_square m) in
  on_board (from_square m) && on_board (to_square m)
  && negb (from_square m =? to_square m)
  && (queen_line df dr || knight_jump df dr).

Definition promotion_piece (p : PieceType) : bool :=
  match p with
  | KNIGHT | BISHOP | ROOK | QUEEN => true
  | PAWN | KING => false
  end.

Definition legal_shape (c : Color) (m : Move) : bool :=
  let df := square_file (to_square m) - square_file (from_square m) in
  valid_displacement m
  && match promotion m with
     | None => true
     | Some p =>
         promotion_piece p
         && (square_rank (from_square m) =? (if c then 6 else 1))
         && (square_rank (to_square m) =? (if c then 7 else 0))
         && (Z.abs df <=? 1)
     end.

(** Two moves between the same squares, one plain and one promoting to a
    queen: the piece on a square is a pawn or it is not, so one position
    never offers both. *)
Definition promotion_clash (m1 m2 : Move) : bool :=
  (from_square m1 =? from_square m2) && (to_square m1 =? to_square m2)
  && bool_decide (promotion m1 = None)
  && bool_decide (promotion m2 = Some QUEEN).

Definition legal_set (c : Color) (l : list Move) : bool :=
  forallb (legal_shape c) l
  && forallb (fun m1 => forallb (fun m2 => negb (promotion_clash m1 m2)) l) l.


(** Moves used as concrete inputs. *)
Definition d1d6 : Move := mkMove 3 43 None.
Definition e2d1r : Move := mkMove 12 3 (Some ROOK).
Definition e7e8q : Move := mkMove 52 60 (Some QUEEN).
Definition e7e8n : Move := mkMove 52 60 (Some KNIGHT).
Definition d7e8q : Move := mkMove 51 60 (Some QUEEN).
Definition a2a1q : Move := mkMove 8 0 (Some QUEEN).


(** A pawn on e7 with three ways to promote, and a knight move. *)
Definition promotion_moves : list Move :=
  [ e7e8q; e7e8n; d7e8q; mkMove 6 21 None ].




(** ** Checking the codec over the finite move space

    Squares range over 64 values and the promotion field over seven, so
    facts about single moves are decided by running the codec on every
    move of the right shape. *)

Definition piece_eqb (p q : PieceType) : bool := piece_code p =? piece_code q.

Definition move_eqb (m1 m2 : Move) : bool :=
  (from_square m1 =? from_square m2) && (to_square m1 =? to_square m2)
  && match promotion m1, promotion m2 with
     | None, None => true
     | Some p, Some q => piece_eqb p q
     | _, _ => false
     end.

Definition returns_move (r : Result Move) (m : Move) : bool :=
  match r with Ok m' => move_eqb m' m | Err _ => false end.

Definition returns_string (r : Result string) (s : string) : bool :=
  match r with Ok s' => String.eqb s' s | Err _ => false end.

Definition is_queen_promotion (m : Move) : bool :=
  bool_decide (promotion m = Some QUEEN).

Definition in_action_space (i : Z) : bool :=
  (0 <=? i) && (i <? 4672).

(** The key that [decode_move] looks up on a queen-like plane, without its
    final ["q"]. *)
Definition queen_key (c : Color) (move : Z) : Result string :=
  let plane := move / 64 in
  let move := move mod 64 in
  let row := move / 8 in
  let col := move mod 8 in
  if plane <? 56 then
    d ← Py.list_getitem dir_list (plane / 7);
    coords (lettering_of c) (numbering_of c) col row
           (col + fst d * (1 + plane mod 7)) (row + snd d * (1 + plane mod 7))
  else Err KeyError.

Definition with_queen (m : Move) : Move :=
  mkMove (from_square m) (to_square m) (Some QUEEN).

Definition roundtrip_check (c : Color) (m : Move) : bool :=
  match action_index m c, uci m with
  | Ok i, Ok u =>
      in_action_space i
      && returns_move (decode_move c (fun _ => is_queen_promotion m) i) m
      && returns_move (from_uci u) m
      && (if i / 64 <? 56 then
            match queen_key c i, promotion m with
            | Ok k, None =>
                String.eqb u k && returns_move (from_uci (k +:+ "q")) (with_queen m)
            | Ok k, Some QUEEN => String.eqb u (k +:+ "q")
            | _, _ => false
            end
          else true)
  | _, _ => false
  end.


Definition all_promotions : list (option PieceType) :=
  [None; Some PAWN; Some KNIGHT; Some BISHOP; Some ROOK; Some QUEEN; Some KING].

Definition all_squares : list Z := seqZ 0 64.

Definition for_all_moves (P : Color -> Move -> bool) : bool :=
  forallb (fun c =>
    forallb (fun f =>
      forallb (fun t =>
        forallb (fun p => P c (mkMove f t p)) all_promotions)
      all_squares)
    all_squares)
  [true; false].

(** What running the codec on one legal move establishes. *)
Record roundtrip_facts (c : Color) (m : Move) (i : Z) (u : string) : Prop := {
  rf_index : action_index m c = Ok i;
  rf_uci : uci m = Ok u;
  rf_range : 0 <= i < 4672;
  rf_decode : decode_move c (fun _ => is_queen_promotion m) i = Ok m;
  rf_parse : from_uci u = Ok m;
  rf_key : i / 64 < 56 ->
    exists k, queen_key c i = Ok k /\
      ((promotion m = None /\ u = k /\ from_uci (k +:+ "q") = Ok (with_queen m))
       \/ (promotion m = Some QUEEN /\ u = k +:+ "q"))
}.

(** ** The board-state encoder [ChessTensor] *)

(** A tensor of shape [C,8,8]: channels, then rows, then columns. *)
Abbreviation Plane := (list (list bool)).
Abbreviation Tensor3 := (list (list (list bool))).

Definition full_plane (v : bool) : Plane := replicate 8 (replicate 8 v).

(** [torch.zeros(n, 8, 8, dtype=torch.bool)] and [torch.ones(...)] *)
Definition zeros3 (n : nat) : Tensor3 := replicate n (full_plane false).
Definition ones3 (n : nat) : Tensor3 := replicate n (full_plane true).

(** [torch.tensor([n], dtype=torch.bool)]: an integer becomes [n != 0]. *)
Definition bool_of_int (n : Z) : bool := negb (n =? 0).

(** [torch.tensor([n], dtype=torch.bool).reshape(1, 1, 1).expand(1, 8, 8)] *)
Definition expand_bool (n : Z) : Tensor3 := [full_plane (bool_of_int n)].

(** [t[channel, row, col] = v], for indices inside the shape. *)
Definition set3 (t : Tensor3) (channel row col : Z) (v : bool) : Tensor3 :=
  alter (alter (fun r => <[Z.to_nat col := v]> r) (Z.to_nat row)) (Z.to_nat channel) t.

(** [t[a:b]], [t[a:]] and [t[:k]] along the first axis; a negative [k]
    counts from the end. *)
Definition slice3 (t : Tensor3) (a b : nat) : Tensor3 := take (b - a) (drop a t).
Definition slice_from (t : Tensor3) (a : nat) : Tensor3 := drop a t.
Definition slice_until (t : Tensor3) (k : Z) : Tensor3 :=
  if k <? 0 then take (Z.to_nat (Z.of_nat (length t) + k)) t
  else take (Z.to_nat k) t.

(** [torch.flip(t, dims)] *)
Definition torch_flip (t : Tensor3) (dims : list nat) : Tensor3 :=
  let t := if bool_decide (0%nat ∈ dims) then reverse t else t in
  let t := if bool_decide (1%nat ∈ dims) then reverse <$> t else t in
  if bool_decide (2%nat ∈ dims) then (fun p => reverse <$> p) <$> t else t.

(** The rules engine as the encoder uses it: the methods and attributes of
    [chess.Board] that [ChessTensor] calls. *)
Class RulesEngine (Board : Type) : Type := {
  new_board : Board;
  from_chess960_pos : Z -> Board;
  piece_at : Board -> Z -> option (PieceType * Color);
  legal_moves : Board -> list Move;
  push : Board -> Move -> Board;
  is_repetition : Board -> Z -> bool;
  move_stack_len : Board -> Z;
  halfmove_clock : Board -> Z;
  has_kingside_castling_rights : Board -> Color -> bool;
  has_queenside_castling_rights : Board -> Color -> bool;
  turn : Board -> Color
}.

Definition M : Z := 14.
Definition T : Z := 8.
Definition L : Z := 7.

(** The [order] dict of [__board_to_tensor]. *)
Definition order (p : PieceType) : Z :=
  match p with
  | PAWN => 0 | KNIGHT => 1 | BISHOP => 2 | ROOK => 3 | QUEEN => 4 | KING => 5
  end.

(** [chess.SQUARES] *)
Definition SQUARES : list Z := seqZ 0 64.

Section Encoder.

Context {Board : Type} `{RulesEngine Board}.

Record ChessTensor : Type := mkChessTensor {
  board : Board;
  representation : Tensor3;
  black_representation : Tensor3
}.

Definition board_to_tensor (b : Board) : Tensor3 :=
  foldl (fun representation square =>
           match piece_at b square with
           | Some (piece_type, color) =>
               let channel := order piece_type in
               let channel := if bool_decide (color = BLACK) then channel + 6 else channel in
               let row := square / 8 in
               let col := square mod 8 in
               set3 representation channel row col true
           | None => representation
           end)
        (zeros3 12) SQUARES.

(** [rnd] is the value [random.randint(0, 959)] returns. *)
Definition start_board (chess960 : bool) (rnd : Z) : ChessTensor :=
  let board := if chess960 then from_chess960_pos rnd else new_board in
  let board_tensor := board_to_tensor board in
  let repetition_tensor := zeros3 2 in
  let current_representation := board_tensor ++ repetition_tensor in
  let white := ones3 1 in
  let black := zeros3 1 in
  let total_moves := zeros3 1 in
  let castling := ones3 4 in
  let no_progress := zeros3 1 in
  mkChessTensor board
    (current_representation ++ zeros3 (Z.to_nat (M * (T - 1)))
       ++ white ++ total_moves ++ castling ++ no_progress)
    (slice3 current_representation 6 12 ++ slice3 current_representation 0 6
       ++ repetition_tensor ++ zeros3 (Z.to_nat (M * (T - 1)))
       ++ black ++ total_moves ++ castling ++ no_progress).

Definition flag_plane (b : bool) : Tensor3 := if b then ones3 1 else zeros3 1.

(** [move_piece] returns the outcome of the call and the object after it;
    a raise leaves the object as it is at that point. *)
Definition move_piece (self : ChessTensor) (move : Move) : Result unit * ChessTensor :=
  if negb (bool_decide (move ∈ legal_moves (board self)))
  then (Err ValueError, self)
  else
    let board := push (board self) move in
    let board_tensor := board_to_tensor board in
    let repetition_1 := is_repetition board 2 in
    let repetition_2 := is_repetition board 3 in
    let repetition_1_tensor := flag_plane repetition_1 in
    let repetition_2_tensor := flag_plane repetition_2 in
    let current_tensor := board_tensor ++ repetition_1_tensor ++ repetition_2_tensor in
    let white := ones3 1 in
    let black := zeros3 1 in
    let total_moves := expand_bool (move_stack_len board) in
    let white_king_castling := flag_plane (has_kingside_castling_rights board WHITE) in
    let white_queen_castling := flag_plane (has_queenside_castling_rights board WHITE) in
    let black_king_castling := flag_plane (has_kingside_castling_rights board BLACK) in
    let black_queen_castling := flag_plane (has_queenside_castling_rights board BLACK) in
    let no_progress := expand_bool (halfmove_clock board) in
    let L_tensor := white ++ total_moves ++ white_king_castling ++ white_queen_castling
                      ++ black_king_castling ++ black_queen_castling ++ no_progress in
    let L_tensor_black := black ++ total_moves ++ black_king_castling ++ black_queen_castling
                            ++ white_king_castling ++ white_queen_castling ++ no_progress in
    let representation := slice_until (representation self) (- M - L) in
    let black_representation := slice_until (black_representation self) (- M - L) in
    (Ok (),
     mkChessTensor board
       (current_tensor ++ representation ++ L_tensor)
       (slice3 current_tensor 6 12 ++ slice3 current_tensor 0 6
          ++ slice_from current_tensor 12 ++ black_representation ++ L_tensor_black)).

Definition get_representation (self : ChessTensor) : Tensor3 :=
  if turn (board self)
  then torch_flip (representation self) [1%nat]
  else torch_flip (black_representation self) [2%nat].

Definition get_moves (self : ChessTensor) : list Move := legal_moves (board self).

(** A game: [move_piece] for each move in turn, up to the first raise. *)
Fixpoint play (self : ChessTensor) (moves : list Move) : Result unit * ChessTensor :=
  match moves with
  | [] => (Ok (), self)
  | move :: moves' =>
      match move_piece self move with
      | (Ok _, self') => play self' moves'
      | (Err e, self') => (Err e, self')
      end
  end.

End Encoder.

Arguments ChessTensor Board : clear implicits.

(** The axis [get_representation] flips for the side to move. *)
Definition perspective_dims (color : Color) : list nat :=
  if color then [1%nat] else [2%nat].

(** Shape [channels, 8, 8]. *)
Definition plane_shape (p : Plane) : Prop :=
  length p = 8%nat /\ Forall (fun r => length r = 8%nat) p.

Definition shape3 (channels : nat) (t : Tensor3) : Prop :=
  length t = channels /\ Forall plane_shape t.

(** History frame [f] of a tensor: the [M] channels from [M * f]. *)
Definition history_frame (t : Tensor3) (f : nat) : Tensor3 :=
  take 14 (drop (14 * f) t).

(** The seven meta planes. *)
Definition meta_planes (side : bool) (plies : Z) (k1 q1 k2 q2 : bool) (clock : Z)
    : Tensor3 :=
  flag_plane side ++ expand_bool plies ++ flag_plane k1 ++ flag_plane q1
    ++ flag_plane k2 ++ flag_plane q2 ++ expand_bool clock.

(** The history frames from [k + 1] on are zero: channels [14 * (k + 1)]
    up to the meta planes at 112. *)
Definition zero_tail (k : nat) (t : Tensor3) : Prop :=
  forall i, (14 * (k + 1) <= i < 112)%nat -> t !! i = Some (full_plane false).

(** The invariant of the encoder after [k] plies. *)
Definition encoder_inv {Board : Type} (k : nat) (self : ChessTensor Board) : Prop :=
  shape3 119 (representation self) /\ shape3 119 (black_representation self)
  /\ zero_tail k (representation self) /\ zero_tail k (black_representation self).

(** ** A reduced rules engine

    An instance of [RulesEngine] on which the encoder can be run on
    concrete games.  It moves pieces and keeps the counters; it accepts
    every non-promoting displacement of a piece of the side to move onto a
    square that side does not hold, so it offers more moves than chess
    does.  The properties of the encoder are proved for every engine; this
    one only supplies concrete runs. *)

Module Mini.

Abbreviation Placement := (list (option (PieceType * Color))).

Record MiniBoard : Type := mkMiniBoard {
  placement : Placement;
  history : list (Placement * Color);
  move_stack : list Move;
  clock : Z;
  side : Color
}.

Definition back_rank : list PieceType :=
  [ROOK; KNIGHT; BISHOP; QUEEN; KING; BISHOP; KNIGHT; ROOK].

Definition initial_placement : Placement :=
  ((fun p => Some (p, WHITE)) <$> back_rank)
  ++ replicate 8 (Some (PAWN, WHITE))
  ++ replicate 32 None
  ++ replicate 8 (Some (PAWN, BLACK))
  ++ ((fun p => Some (p, BLACK)) <$> back_rank).

Definition initial : MiniBoard :=
  mkMiniBoard initial_placement [(initial_placement, WHITE)] [] 0 WHITE.

Definition at_square (b : MiniBoard) (sq : Z) : option (PieceType * Color) :=
  if sq <? 0 then None else mjoin (placement b !! Z.to_nat sq).

Definition holds (b : MiniBoard) (c : Color) (sq : Z) : bool :=
  match at_square b sq with
  | Some (_, c') => bool_decide (c' = c)
  | None => false
  end.

Definition accepts (b : MiniBoard) (m : Move) : bool :=
  valid_displacement m
  && holds b (side b) (from_square m)
  && negb (holds b (side b) (to_square m))
  && bool_decide (promotion m = None).

Definition plain_moves : list Move :=
  List.flat_map (fun f => List.map (fun t => mkMove f t None) (seqZ 0 64)) (seqZ 0 64).

Definition moves (b : MiniBoard) : list Move := List.filter (accepts b) plain_moves.

Definition is_pawn (x : option (PieceType * Color)) : bool :=
  match x with
  | Some (PAWN, _) => true
  | _ => false
  end.

Definition apply_move (b : MiniBoard) (m : Move) : MiniBoard :=
  let moved := at_square b (from_square m) in
  let capture := bool_decide (is_Some (at_square b (to_square m))) in
  let placement' :=
    <[Z.to_nat (to_square m) := moved]>
      (<[Z.to_nat (from_square m) := None]> (placement b)) in
  mkMiniBoard placement'
    ((placement', negb (side b)) :: history b)
    (move_stack b ++ [m])
    (if is_pawn moved || capture then 0 else clock b + 1)
    (negb (side b)).

Definition occurrences (b : MiniBoard) : Z :=
  Z.of_nat (length (List.filter
    (fun h => bool_decide (h = (placement b, side b))) (history b))).

Definition repeated (b : MiniBoard) (count : Z) : bool := count <=? occurrences b.

Definition touched (b : MiniBoard) (sq : Z) : bool :=
  existsb (fun m => (from_square m =? sq) || (to_square m =? sq)) (move_stack b).

Definition kingside (b : MiniBoard) (c : Color) : bool :=
  if c then negb (touched b 4) && negb (touched b 7)
  else negb (touched b 60) && negb (touched b 63).

Definition queenside (b : MiniBoard) (c : Color) : bool :=
  if c then negb (touched b 4) && negb (touched b 0)
  else negb (touched b 60) && negb (touched b 56).

#[global] Instance engine : RulesEngine MiniBoard := {
  new_board := initial;
  from_chess960_pos := fun _ => initial;
  piece_at := at_square;
  legal_moves := moves;
  push := apply_move;
  is_repetition := repeated;
  move_stack_len := fun b => Z.of_nat (length (move_stack b));
  halfmove_clock := clock;
  has_kingside_castling_rights := kingside;
  has_queenside_castling_rights := queenside;
  turn := side
}.

(** Seven plies of knight moves out and back: g1f3 g8f6 f3g1 f6g8 g1f3
    g8f6 f3g1. *)
Definition knight_dance : list Move :=
  [ mkMove 6 21 None; mkMove 62 45 None; mkMove 21 6 None; mkMove 45 62 None;
    mkMove 6 21 None; mkMove 62 45 None; mkMove 21 6 None ].

(** e2e4, e7e5, g1f3. *)
Definition opening : list Move :=
  [ mkMove 12 28 None; mkMove 52 36 None; mkMove 6 21 None ].

End Mini.

(** ** Further checks of the codec over its finite domains *)

(** A promotion to knight, bishop or rook: the moves whose [uci] ends in
    one of ["nbr"]. *)
Definition underpromotion (m : Move) : bool :=
  match promotion m with
  | Some KNIGHT | Some BISHOP | Some ROOK => true
  | _ => false
  end.

(** The same move on the board turned by 180 degrees. *)
Definition rotate_move (m : Move) : Move :=
  mkMove (63 - from_square m) (63 - to_square m) (promotion m).

Definition error_eqb (e1 e2 : PyError) : bool :=
  match e1, e2 with
  | IndexError, IndexError | KeyError, KeyError
  | ValueError, ValueError | InvalidMoveError, InvalidMoveError => true
  | _, _ => false
  end.

Definition index_result_eqb (r1 r2 : Result Z) : bool :=
  match r1, r2 with
  | Ok i, Ok j => i =? j
  | Err e1, Err e2 => error_eqb e1 e2
  | _, _ => false
  end.

(** [action_index] returns exactly on the valid displacements and on the
    underpromotions that stay in place, and raises [KeyError] otherwise;
    Black's index is White's index of the rotated move. *)
Definition encode_check (c : Color) (m : Move) : bool :=
  (match action_index m c with
   | Ok i =>
       in_action_space i
       && (valid_displacement m
           || ((from_square m =? to_square m) && underpromotion m))
   | Err e =>
       error_eqb e KeyError
       && negb (valid_displacement m)
       && negb ((from_square m =? to_square m) && underpromotion m)
   end)
  && index_result_eqb (action_index m BLACK) (action_index (rotate_move m) WHITE).

(** What [decode_move] may return at one index, for either answer of the
    side-set: a move between two distinct squares of the board, or
    [IndexError]. *)
Definition decode_outcome_ok (r : Result Move) : bool :=
  match r with
  | Ok m =>
      on_board (from_square m) && on_board (to_square m)
      && negb (from_square m =? to_square m)
  | Err e => error_eqb e IndexError
  end.

Definition decode_check (c : Color) (i : Z) : bool :=
  decode_outcome_ok (decode_move c (fun _ => true) i)
  && decode_outcome_ok (decode_move c (fun _ => false) i).

Definition all_indices : list Z := seqZ 0 4672.

Definition for_all_indices (P : Color -> Z -> bool) : bool :=
  forallb (fun c => forallb (P c) all_indices) [true; false].

(** ** Cells and frames of the encoder's tensors *)

(** [t[channel, row, col]] *)
Definition cell3 (t : Tensor3) (channel row col : nat) : option bool :=
  t !! channel ≫= fun p => p !! row ≫= fun r => r !! col.

(** The channel [__board_to_tensor] writes for a piece. *)
Definition piece_channel (p : PieceType) (c : Color) : Z :=
  if bool_decide (c = BLACK) then order p + 6 else order p.

Definition holds_channel (x : option (PieceType * Color)) (channel : nat) : bool :=
  match x with
  | Some (p, c) => piece_channel p c =? Z.of_nat channel
  | None => false
  end.

(** [cur[6:12], cur[:6], cur[12:]]: the frame with the two groups of six
    piece planes exchanged. *)
Definition swap_frame (cur : Tensor3) : Tensor3 :=
  slice3 cur 6 12 ++ slice3 cur 0 6 ++ slice_from cur 12.

Definition swap_channel (channel : nat) : nat :=
  if (channel <? 6)%nat then (channel + 6)%nat else (channel - 6)%nat.

(** ** [PlayTensor] of [play.py]

    [self.game] is the one [ChessTensor] of the object; each method takes
    it and returns the outcome with the game after the call. *)

Section Play.

Context {Board : Type} `{RulesEngine Board}.

Definition get_move (game : ChessTensor Board) : list Move := get_moves game.

(** [__generate_move]: the first move of [get_move] is played. *)
Definition generate_move (game : ChessTensor Board) : Result Move * ChessTensor Board :=
  match Py.list_getitem (get_move game) 0 with
  | Err e => (Err e, game)
  | Ok move =>
      match move_piece game move with
      | (Ok _, game') => (Ok move, game')
      | (Err e, game') => (Err e, game')
      end
  end.

Definition play_move (game : ChessTensor Board) (move : Move)
    : Result Move * ChessTensor Board :=
  match move_piece game move with
  | (Ok _, game') => generate_move game'
  | (Err e, game') => (Err e, game')
  end.

Definition start_new_game (chess960 : bool) (rnd : Z) (color : Color)
    : Result unit * ChessTensor Board :=
  if bool_decide (color = WHITE) then (Ok (), start_board chess960 rnd)
  else
    match generate_move (start_board chess960 rnd) with
    | (Ok _, game) => (Ok (), game)
    | (Err e, game) => (Err e, game)
    end.

End Play.

(** What holds of the two stored views after [start_board] and after every
    applied move: the shapes, the black view as the white view with the
    piece groups exchanged in every history frame, the newest piece planes
    as the planes of the board, and the seven meta planes. *)
Definition views_inv {Board : Type} `{RulesEngine Board} (self : ChessTensor Board) : Prop :=
  shape3 119 (representation self) /\ shape3 119 (black_representation self)
  /\ (forall f, (f < 8)%nat ->
        history_frame (black_representation self) f
          = swap_frame (history_frame (representation self) f))
  /\ take 12 (representation self) = board_to_tensor (board self)
  /\ exists plies k1 q1 k2 q2 clock,
       drop 112 (representation self) = meta_planes true plies k1 q1 k2 q2 clock
       /\ drop 112 (black_representation self)
            = meta_planes false plies k2 q2 k1 q1 clock.

(** ** Proofs: Python primitives *)

Lemma truediv_is_one_eqb x y : 0 < y -> Py.truediv_is_one x y = (x =? y).
Proof.
  intros Hy. unfold Py.truediv_is_one.
  destruct (Z.eqb_spec x y) as [->|Hne].
  - apply Qeq_bool_iff. field. intros H.
    unfold Qeq, inject_Z in H. simpl in H. lia.
  - apply not_true_is_false. intros H. apply Qeq_bool_iff in H.
    apply Hne. destruct y as [|py|py]; try lia.
    unfold Qeq, Qdiv, Qmult, Qinv, inject_Z in H. simpl in H. lia.
Qed.

Lemma result_bind_ok {A B} (r : Result A) (f : A -> Result B) b :
  r ≫= f = Ok b -> exists a, r = Ok a /\ f a = Ok b.
Proof. destruct r as [a|e]; [eauto | discriminate]. Qed.

Lemma move_eqb_eq m1 m2 : move_eqb m1 m2 = true -> m1 = m2.
Proof.
  destruct m1 as [f1 t1 p1], m2 as [f2 t2 p2]. unfold move_eqb. simpl.
  intros H. apply andb_prop in H as [H Hp]. apply andb_prop in H as [Hf Ht].
  apply Z.eqb_eq in Hf, Ht. subst.
  destruct p1 as [p1|], p2 as [p2|]; try discriminate; [|reflexivity].
  destruct p1, p2; try discriminate; reflexivity.
Qed.

Lemma returns_move_eq r m : returns_move r m = true -> r = Ok m.
Proof.
  destruct r as [m'|e]; [|discriminate]. simpl. intros H.
  f_equal. by apply move_eqb_eq.
Qed.

Lemma returns_string_eq r s : returns_string r s = true -> r = Ok s.
Proof.
  destruct r as [s'|e]; [|discriminate]. simpl. intros H.
  f_equal. by apply String.eqb_eq.
Qed.

(** ** Proofs: enumeration of the move space *)

Lemma on_board_elem_of sq : on_board sq = true -> In sq all_squares.
Proof.
  unfold on_board, all_squares. intros H.
  apply list_elem_of_In, elem_of_seqZ. lia.
Qed.

Lemma promotion_elem_of (p : option PieceType) : In p all_promotions.
Proof. destruct p as [[]|]; simpl; tauto. Qed.

Lemma for_all_moves_spec (P : Color -> Move -> bool) :
  for_all_moves P = true ->
  forall c m, on_board (from_square m) = true -> on_board (to_square m) = true ->
    P c m = true.
Proof.
  unfold for_all_moves. intros H c [f t p]. simpl. intros Hf Ht.
  rewrite forallb_forall in H.
  assert (Hc : In c [true; false]) by (destruct c; simpl; tauto).
  specialize (H c Hc). rewrite forallb_forall in H.
  specialize (H f (on_board_elem_of f Hf)). rewrite forallb_forall in H.
  specialize (H t (on_board_elem_of t Ht)). rewrite forallb_forall in H.
  exact (H p (promotion_elem_of p)).
Qed.

Lemma valid_displacement_on_board m :
  valid_displacement m = true ->
  on_board (from_square m) = true /\ on_board (to_square m) = true.
Proof.
  unfold valid_displacement. intros H.
  apply andb_prop in H as [H _]. apply andb_prop in H as [H _].
  by apply andb_prop in H.
Qed.

Lemma legal_shape_valid c m : legal_shape c m = true -> valid_displacement m = true.
Proof. unfold legal_shape. intros H. by apply andb_prop in H as [H _]. Qed.


Lemma roundtrip_check_all :
  for_all_moves (fun c m => implb (legal_shape c m) (roundtrip_check c m)) = true.
Proof. vm_compute. reflexivity. Qed.

Lemma ACTIONS_size : Z.of_nat ACTIONS = 4672.
Proof. reflexivity. Qed.

Lemma in_action_space_range i : in_action_space i = true -> 0 <= i < 4672.
Proof.
  unfold in_action_space. intros H. apply andb_prop in H as [H1 H2].
  apply Z.leb_le in H1. apply Z.ltb_lt in H2. lia.
Qed.


Lemma legal_shape_roundtrip c m :
  legal_shape c m = true -> exists i u, roundtrip_facts c m i u.
Proof.
  intros Hl.
  destruct (valid_displacement_on_board m (legal_shape_valid c m Hl)) as [Hf Ht].
  pose proof (for_all_moves_spec _ roundtrip_check_all c m Hf Ht) as H.
  cbv beta in H. rewrite Hl in H. simpl in H. unfold roundtrip_check in H.
  destruct (action_index m c) as [i|e] eqn:Hi; [|discriminate].
  destruct (uci m) as [u|e] eqn:Hu; [|discriminate].
  apply andb_prop in H as [H Hk]. apply andb_prop in H as [H Hp].
  apply andb_prop in H as [Hr Hd].
  exists i, u. split; try assumption.
  - by apply in_action_space_range.
  - by apply returns_move_eq.
  - by apply returns_move_eq.
  - intros Hlt. apply Z.ltb_lt in Hlt. rewrite Hlt in Hk.
    destruct (queen_key c i) as [k|e]; [|discriminate].
    exists k. split; [reflexivity|].
    destruct (promotion m) as [[]|]; try discriminate.
    + right. split; [reflexivity|]. by apply String.eqb_eq.
    + left. apply andb_prop in Hk as [Hk1 Hk2].
      split; [reflexivity|]. split; [by apply String.eqb_eq|].
      by apply returns_move_eq.
Qed.

(** ** Proofs: the decoder reads the side-set at one key only *)

Lemma decode_move_get_ext c (g1 g2 : string -> bool) i :
  (forall k, queen_key c i = Ok k -> g1 (k +:+ "q") = g2 (k +:+ "q")) ->
  decode_move c g1 i = decode_move c g2 i.
Proof.
  unfold decode_move, queen_key. intros H.
  destruct (i / 64 <? 56); [|reflexivity].
  destruct (Py.list_getitem dir_list (i / 64 / 7)) as [d|e]; [|reflexivity].
  simpl in *.
  destruct (coords _ _ _ _ _ _) as [k|e]; [|reflexivity].
  simpl. by rewrite (H k eq_refl).
Qed.

Lemma decode_move_upper_planes c (g1 g2 : string -> bool) i :
  56 <= i / 64 -> decode_move c g1 i = decode_move c g2 i.
Proof.
  intros Hp. apply decode_move_get_ext. unfold queen_key.
  destruct (Z.ltb_spec (i / 64) 56); [lia | discriminate].
Qed.

(** ** Proofs: one-hot tensors *)

Lemma nonzero_from_zeros k n : nonzero_from k (replicate n Float.zero) = [].
Proof. revert k. induction n as [|n IH]; intros k; simpl; [reflexivity | apply IH]. Qed.

Lemma nonzero_from_insert k n j p :
  (j < n)%nat -> Float.is_zero p = false ->
  nonzero_from k (<[j := p]> (replicate n Float.zero)) = [k + Z.of_nat j].
Proof.
  revert k j. induction n as [|n IH]; intros k j Hj Hp; [lia|].
  destruct j as [|j]; simpl.
  - rewrite Hp. rewrite nonzero_from_zeros. f_equal. lia.
  - rewrite IH by (lia || assumption). f_equal. lia.
Qed.


Lemma setitem_zeros i p :
  0 <= i < 4672 ->
  Py.list_setitem (torch_zeros ACTIONS) i p
  = Ok (<[Z.to_nat i := p]> (torch_zeros ACTIONS)).
Proof.
  intros Hi. unfold Py.list_setitem, Py.norm_index, torch_zeros.
  rewrite length_replicate, ACTIONS_size.
  destruct (Z.ltb_spec i 0); [lia|].
  destruct (Z.leb_spec 0 i); [|lia].
  destruct (Z.ltb_spec i 4672); [|lia].
  reflexivity.
Qed.

Lemma nonzero_one_hot i p :
  0 <= i < 4672 -> Float.is_zero p = false ->
  nonzero (<[Z.to_nat i := p]> (torch_zeros ACTIONS)) = [i].
Proof.
  intros Hi Hp. unfold nonzero, torch_zeros.
  pose proof ACTIONS_size.
  rewrite nonzero_from_insert by (lia || assumption). f_equal. lia.
Qed.

Lemma actionToTensor_one_hot c m p i :
  action_index m c = Ok i -> 0 <= i < 4672 ->
  actionToTensor m c p = Ok (<[Z.to_nat i := Float.round32 p]> (torch_zeros ACTIONS)).
Proof.
  intros Hi Hr. unfold actionToTensor. rewrite Hi. simpl.
  by apply setitem_zeros.
Qed.


(** ** Proofs: the side-set built by [actionsToTensor] *)






Lemma legal_set_shape c l m : legal_set c l = true -> m ∈ l -> legal_shape c m = true.
Proof.
  unfold legal_set. intros H Hm. apply andb_prop in H as [H _].
  rewrite forallb_forall in H. apply H. by apply list_elem_of_In.
Qed.

Lemma legal_set_no_clash c l m1 m2 :
  legal_set c l = true -> m1 ∈ l -> m2 ∈ l -> promotion_clash m1 m2 = false.
Proof.
  unfold legal_set. intros H H1 H2. apply andb_prop in H as [_ H].
  rewrite forallb_forall in H. apply list_elem_of_In in H1, H2.
  specialize (H m1 H1). rewrite forallb_forall in H.
  specialize (H m2 H2). by apply negb_true_iff in H.
Qed.

Lemma with_queen_clash m : promotion m = None -> promotion_clash m (with_queen m) = true.
Proof.
  intros H. unfold promotion_clash, with_queen. simpl.
  rewrite !Z.eqb_refl, H. reflexivity.
Qed.


(** ** The codec on legal moves *)



(** C2. Injectivity: two moves of a set a position offers to mover [c] are
    both encoded by [actionToTensor] at an index of [0, 4672), and the
    indices are equal only if the moves are. *)
Theorem actionToTensor_injective_on_legal (c : Color) (l : list Move) (m1 m2 : Move) :
  legal_set c l = true -> m1 ∈ l -> m2 ∈ l ->
  exists i1 i2,
    (nonzero <$> actionToTensor m1 c (Float.of_int 1)) = Ok [i1] /\
    (nonzero <$> actionToTensor m2 c (Float.of_int 1)) = Ok [i2] /\
    0 <= i1 < 4672 /\ 0 <= i2 < 4672 /\
    (i1 = i2 -> m1 = m2).
Proof.
  intros Hl H1 H2.
  destruct (legal_shape_roundtrip c m1 (legal_set_shape c l m1 Hl H1)) as (i1 & u1 & Hf1).
  destruct (legal_shape_roundtrip c m2 (legal_set_shape c l m2 Hl H2)) as (i2 & u2 & Hf2).
  exists i1, i2.
  rewrite (actionToTensor_one_hot c m1 (Float.of_int 1) i1
             (rf_index _ _ _ _ Hf1) (rf_range _ _ _ _ Hf1)).
  rewrite (actionToTensor_one_hot c m2 (Float.of_int 1) i2
             (rf_index _ _ _ _ Hf2) (rf_range _ _ _ _ Hf2)).
  cbn [fmap Result_fmap].
  rewrite !nonzero_one_hot
    by (apply (rf_range _ _ _ _ Hf1) || apply (rf_range _ _ _ _ Hf2) || reflexivity).
  split; [reflexivity|]. split; [reflexivity|].
  split; [exact (rf_range _ _ _ _ Hf1)|]. split; [exact (rf_range _ _ _ _ Hf2)|].
  intros <-.
  pose proof (rf_parse _ _ _ _ Hf1) as Hp1. pose proof (rf_parse _ _ _ _ Hf2) as Hp2.
  destruct (Z.lt_ge_cases (i1 / 64) 56) as [Hlow|Hup].
  - destruct (rf_key _ _ _ _ Hf1 Hlow) as (k & Hk & Hc1).
    destruct (rf_key _ _ _ _ Hf2 Hlow) as (k' & Hk' & Hc2).
    rewrite Hk in Hk'. injection Hk' as <-.
    destruct Hc1 as [(Hn1 & -> & Hq1)|(Hq1 & ->)], Hc2 as [(Hn2 & -> & Hq2)|(Hq2 & ->)].
    + congruence.
    + rewrite Hq1 in Hp2. injection Hp2 as <-.
      pose proof (legal_set_no_clash c l m1 (with_queen m1) Hl H1 H2) as Hc.
      rewrite with_queen_clash in Hc by assumption. discriminate.
    + rewrite Hq2 in Hp1. injection Hp1 as <-.
      pose proof (legal_set_no_clash c l m2 (with_queen m2) Hl H2 H1) as Hc.
      rewrite with_queen_clash in Hc by assumption. discriminate.
    + congruence.
  - pose proof (rf_decode _ _ _ _ Hf1) as Hd1. pose proof (rf_decode _ _ _ _ Hf2) as Hd2.
    rewrite (decode_move_upper_planes c _ (fun _ => is_queen_promotion m2)) in Hd1 by assumption.
    congruence.
Qed.

Lemma actionToTensor_injective_on_legal_witness :
  exists i1 i2,
    (nonzero <$> actionToTensor e7e8q WHITE (Float.of_int 1)) = Ok [i1] /\
    (nonzero <$> actionToTensor e7e8n WHITE (Float.of_int 1)) = Ok [i2] /\
    0 <= i1 < 4672 /\ 0 <= i2 < 4672 /\
    (i1 = i2 -> e7e8q = e7e8n).
Proof.
  apply (actionToTensor_injective_on_legal WHITE promotion_moves e7e8q e7e8n).
  - vm_compute. reflexivity.
  - unfold promotion_moves. apply list_elem_of_here.
  - unfold promotion_moves. apply list_elem_of_further, list_elem_of_here.
Defined.

(** ** Binary32 sums from 0.0 *)



(** ** The mask aggregator adds weights *)










(** ** Single encodings *)

(** C9. [d1d6] with White as mover: the unit step is [(0, -1)], pure
    vertical, direction index 0; the distance is 5; the plane is
    [0 * 7 + (5 - 1) = 4] and the one entry set is [4 * 64 + 7 * 8 + 3]. *)
Theorem actionToTensor_d1d6 :
  uci d1d6 = Ok "d1d6" /\
  frame d1d6 WHITE = (7, 3, 2, 3) /\
  (check_polarity (3 - 3), check_polarity (2 - 7)) = (0, -1) /\
  Py.dict_getitem dir_dict (0, -1) = Ok 0 /\
  Z.max (Z.abs (2 - 7)) (Z.abs (3 - 3)) = 5 /\
  action_index d1d6 WHITE = Ok (4 * 64 + 7 * 8 + 3) /\
  (nonzero <$> actionToTensor d1d6 WHITE (Float.of_int 1)) = Ok [4 * 64 + 7 * 8 + 3].
Proof. repeat split; vm_compute; reflexivity. Qed.





(** C4. Index 0 decodes, for White, to plane 0 (one step in direction
    [(0, -1)]) from row 0: the destination row is -1, off the board.
    [numbering[-1]] is the last character, so the call returns the move
    a8a1 instead of failing.  A destination column of 8 does fail: index
    [7 * 64 + 7] raises [IndexError]. *)
Theorem tensorToAction_wraps_negative_row :
  0 / 64 = 0 /\ Py.list_getitem dir_list (0 / 64 / 7) = Ok (0, -1) /\
  (0 mod 64) / 8 + (-1) * (1 + (0 / 64) mod 7) = -1 /\
  uci (mkMove 56 0 None) = Ok "a8a1" /\
  tensorToAction (<[0%nat := Float.f32 1]> (torch_zeros ACTIONS)) WHITE ∅
    = Ok [mkMove 56 0 None] /\
  tensorToAction (<[455%nat := Float.f32 1]> (torch_zeros ACTIONS)) WHITE ∅
    = Err IndexError.
Proof. repeat split; vm_compute; reflexivity. Qed.

(** ** Proofs: shapes of the encoder's tensors *)

Lemma plane_shape_full v : plane_shape (full_plane v).
Proof.
  unfold plane_shape, full_plane. split; [apply length_replicate|].
  apply Forall_replicate, length_replicate.
Qed.

Lemma shape3_zeros n : shape3 n (zeros3 n).
Proof.
  unfold shape3, zeros3. split; [apply length_replicate|].
  apply Forall_replicate, plane_shape_full.
Qed.

Lemma shape3_ones n : shape3 n (ones3 n).
Proof.
  unfold shape3, ones3. split; [apply length_replicate|].
  apply Forall_replicate, plane_shape_full.
Qed.

Lemma shape3_flag b : shape3 1 (flag_plane b).
Proof. destruct b; [apply shape3_ones | apply shape3_zeros]. Qed.

Lemma shape3_expand n : shape3 1 (expand_bool n).
Proof.
  unfold shape3, expand_bool. split; [reflexivity|].
  repeat constructor; apply plane_shape_full.
Qed.

Lemma shape3_app n a b (t u : Tensor3) :
  shape3 a t -> shape3 b u -> n = (a + b)%nat -> shape3 n (t ++ u).
Proof.
  intros [Hlt Ht] [Hlu Hu] ->. split.
  - rewrite length_app. lia.
  - apply Forall_app. by split.
Qed.

Lemma shape3_slice3 n (t : Tensor3) a b :
  shape3 n t -> (a <= b <= n)%nat -> shape3 (b - a) (slice3 t a b).
Proof.
  intros [Hl Ht] Hab. unfold slice3. split.
  - rewrite length_take, length_drop. lia.
  - by apply Forall_take, Forall_drop.
Qed.

Lemma shape3_slice_from n (t : Tensor3) a :
  shape3 n t -> shape3 (n - a) (slice_from t a).
Proof.
  intros [Hl Ht]. unfold slice_from. split.
  - rewrite length_drop. lia.
  - by apply Forall_drop.
Qed.

Lemma slice_until_neg (t : Tensor3) (k : nat) :
  (0 < k)%nat -> slice_until t (- Z.of_nat k) = take (length t - k) t.
Proof.
  intros Hk. unfold slice_until.
  destruct (Z.ltb_spec (- Z.of_nat k) 0); [|lia].
  f_equal. lia.
Qed.

Lemma shape3_slice_until n (t : Tensor3) (k : nat) :
  shape3 n t -> (0 < k)%nat -> shape3 (n - k) (slice_until t (- Z.of_nat k)).
Proof.
  intros [Hl Ht] Hk. rewrite slice_until_neg by assumption. split.
  - rewrite length_take. lia.
  - by apply Forall_take.
Qed.

Lemma shape3_set3 n (t : Tensor3) channel row col v :
  shape3 n t -> shape3 n (set3 t channel row col v).
Proof.
  intros [Hl Ht]. unfold set3. split.
  - by rewrite length_alter.
  - apply Forall_alter; [assumption|].
    intros p _ [Hlp Hp]. split.
    + by rewrite length_alter.
    + apply Forall_alter; [assumption|].
      intros r _ Hr. by rewrite length_insert.
Qed.

Lemma app3_assoc {A} (a b c rest : list A) :
  a ++ b ++ c ++ rest = (a ++ b ++ c) ++ rest.
Proof. by rewrite <- !app_assoc. Qed.

Section EncoderProofs.

Context {Board : Type} `{RulesEngine Board}.

Lemma board_to_tensor_shape (b : Board) : shape3 12 (board_to_tensor b).
Proof.
  unfold board_to_tensor. generalize (shape3_zeros 12).
  generalize (zeros3 12). induction SQUARES as [|sq l IH]; intros t Ht.
  - exact Ht.
  - simpl. apply IH. destruct (piece_at b sq) as [[p c]|]; [|exact Ht].
    by apply shape3_set3.
Qed.

(** The frame of one position: twelve piece planes and two repetition
    planes. *)
Lemma current_tensor_shape (b : Board) r1 r2 :
  shape3 14 (board_to_tensor b ++ flag_plane r1 ++ flag_plane r2).
Proof.
  eapply shape3_app; [apply board_to_tensor_shape| |reflexivity].
  eapply shape3_app; [apply shape3_flag|apply shape3_flag|reflexivity].
Qed.

(** The black view of a frame swaps the two groups of six piece planes. *)
Lemma swapped_frame_shape (cur : Tensor3) :
  shape3 14 cur ->
  shape3 14 (slice3 cur 6 12 ++ slice3 cur 0 6 ++ slice_from cur 12).
Proof.
  intros Hc.
  eapply shape3_app; [apply (shape3_slice3 14); [assumption|lia]| |reflexivity].
  eapply shape3_app; [apply (shape3_slice3 14); [assumption|lia]| |reflexivity].
  apply (shape3_slice_from 14). assumption.
Qed.

Lemma meta_planes_shape side plies k1 q1 k2 q2 clock :
  shape3 7 (meta_planes side plies k1 q1 k2 q2 clock).
Proof.
  unfold meta_planes.
  repeat (eapply shape3_app;
          [first [apply shape3_flag | apply shape3_expand]| |reflexivity]).
  apply shape3_expand.
Qed.

Lemma meta_planes_counters side plies k1 q1 k2 q2 clock :
  meta_planes side plies k1 q1 k2 q2 clock !! 1%nat
    = Some (full_plane (bool_of_int plies)) /\
  meta_planes side plies k1 q1 k2 q2 clock !! 6%nat
    = Some (full_plane (bool_of_int clock)).
Proof. unfold meta_planes. destruct side, k1, q1, k2, q2; split; reflexivity. Qed.

(** What [move_piece] does on a legal move, with the frame and the meta
    planes named. *)
Lemma move_piece_legal (self : ChessTensor Board) (move : Move) :
  move ∈ legal_moves (board self) ->
  let b := push (board self) move in
  let cur := board_to_tensor b ++ flag_plane (is_repetition b 2)
               ++ flag_plane (is_repetition b 3) in
  let wk := has_kingside_castling_rights b WHITE in
  let wq := has_queenside_castling_rights b WHITE in
  let bk := has_kingside_castling_rights b BLACK in
  let bq := has_queenside_castling_rights b BLACK in
  move_piece self move =
    (Ok (),
     mkChessTensor b
       (cur ++ slice_until (representation self) (-21)
          ++ meta_planes true (move_stack_len b) wk wq bk bq (halfmove_clock b))
       ((slice3 cur 6 12 ++ slice3 cur 0 6 ++ slice_from cur 12)
          ++ slice_until (black_representation self) (-21)
          ++ meta_planes false (move_stack_len b) bk bq wk wq (halfmove_clock b))).
Proof.
  intros Hm. unfold move_piece. rewrite bool_decide_eq_true_2 by assumption.
  cbn [negb]. unfold meta_planes. cbv zeta.
  change (- M - L) with (-21). change (flag_plane true) with (ones3 1).
  change (flag_plane false) with (zeros3 1).
  rewrite <- !app_assoc. reflexivity.
Qed.

Lemma move_piece_illegal (self : ChessTensor Board) (move : Move) :
  move ∉ legal_moves (board self) -> move_piece self move = (Err ValueError, self).
Proof.
  intros Hm. unfold move_piece. by rewrite bool_decide_eq_false_2.
Qed.

(** ** Proofs: the history window *)

Lemma zero_tail_frame (k f : nat) (t : Tensor3) :
  zero_tail k t -> (k < f < 8)%nat -> history_frame t f = zeros3 14.
Proof.
  intros Hz Hf. unfold history_frame, zeros3. apply list_eq. intros i.
  destruct (decide (i < 14)%nat) as [Hi|Hi].
  - rewrite lookup_take_lt by assumption. rewrite lookup_drop.
    rewrite lookup_replicate_2 by assumption. apply Hz. lia.
  - rewrite lookup_take_ge by lia. symmetry.
    apply lookup_replicate_None. lia.
Qed.

(** Pushing a frame in front of the first 98 channels moves every zero
    frame one slot back. *)
Lemma zero_tail_push (k : nat) (cur t meta : Tensor3) :
  shape3 14 cur -> shape3 119 t -> zero_tail k t ->
  zero_tail (S k) (cur ++ slice_until t (-21) ++ meta).
Proof.
  intros [Hc _] [Ht _] Hz i Hi.
  rewrite lookup_app_r by lia. rewrite Hc.
  change (-21) with (- Z.of_nat 21). rewrite slice_until_neg by lia.
  rewrite lookup_app_l by (rewrite length_take; lia).
  rewrite lookup_take_lt by lia. apply Hz. lia.
Qed.

Lemma shape3_push (cur t meta : Tensor3) :
  shape3 14 cur -> shape3 119 t -> shape3 7 meta ->
  shape3 119 (cur ++ slice_until t (-21) ++ meta).
Proof.
  intros Hc Ht Hm.
  apply (shape3_app 119 14 105); [exact Hc| |reflexivity].
  apply (shape3_app 105 98 7); [|exact Hm|reflexivity].
  change (-21) with (- Z.of_nat 21). apply (shape3_slice_until 119); [assumption|lia].
Qed.

Lemma start_board_inv (chess960 : bool) (rnd : Z) :
  encoder_inv 0 (start_board chess960 rnd).
Proof.
  unfold start_board. cbv zeta.
  set (b := if chess960 then from_chess960_pos rnd else new_board).
  pose proof (current_tensor_shape b false false) as Hcur.
  change (flag_plane false) with (zeros3 1) in Hcur.
  assert (Hcur' : shape3 14 (board_to_tensor b ++ zeros3 2)).
  { eapply shape3_app; [apply board_to_tensor_shape|apply shape3_zeros|reflexivity]. }
  assert (Hmeta : forall side : Tensor3, shape3 1 side ->
            shape3 105 (zeros3 (Z.to_nat (M * (T - 1))) ++ side
                          ++ zeros3 1 ++ ones3 4 ++ zeros3 1)).
  { intros side Hside.
    eapply shape3_app; [apply shape3_zeros| |reflexivity].
    eapply shape3_app; [exact Hside| |reflexivity].
    eapply shape3_app; [apply shape3_zeros| |reflexivity].
    eapply shape3_app; [apply shape3_ones|apply shape3_zeros|reflexivity]. }
  assert (Hzero : forall (cur rest : Tensor3), shape3 14 cur ->
            zero_tail 0 (cur ++ zeros3 (Z.to_nat (M * (T - 1))) ++ rest)).
  { intros cur rest [Hc _] i Hi.
    rewrite lookup_app_r by lia. rewrite Hc.
    rewrite lookup_app_l by (unfold zeros3; rewrite length_replicate;
      change (Z.to_nat (M * (T - 1))) with 98%nat; lia).
    unfold zeros3. apply lookup_replicate_2.
    change (Z.to_nat (M * (T - 1))) with 98%nat. lia. }
  assert (Hswap : shape3 14 (slice3 (board_to_tensor b ++ zeros3 2) 6 12
                    ++ slice3 (board_to_tensor b ++ zeros3 2) 0 6 ++ zeros3 2)).
  { eapply shape3_app; [apply (shape3_slice3 14); [assumption|lia]| |reflexivity].
    eapply shape3_app; [apply (shape3_slice3 14); [assumption|lia]| |reflexivity].
    apply shape3_zeros. }
  unfold encoder_inv. cbn [representation black_representation].
  split; [|split; [|split]].
  - eapply shape3_app; [exact Hcur'|apply Hmeta, shape3_ones|reflexivity].
  - rewrite app3_assoc.
    eapply shape3_app; [exact Hswap|apply Hmeta, shape3_zeros|reflexivity].
  - by apply Hzero.
  - rewrite app3_assoc. by apply Hzero.
Qed.

Lemma move_piece_inv (k : nat) (self : ChessTensor Board) (move : Move) :
  encoder_inv k self -> move ∈ legal_moves (board self) ->
  encoder_inv (S k) (move_piece self move).2.
Proof.
  intros (Hr & Hb & Hzr & Hzb) Hm. rewrite (move_piece_legal self move Hm).
  cbv zeta. unfold encoder_inv. cbn [snd representation black_representation].
  pose proof (current_tensor_shape (push (board self) move)
    (is_repetition (push (board self) move) 2)
    (is_repetition (push (board self) move) 3)) as Hcur.
  pose proof (swapped_frame_shape _ Hcur) as Hswap.
  split; [|split; [|split]].
  - apply shape3_push; [assumption..|apply meta_planes_shape].
  - apply shape3_push; [assumption..|apply meta_planes_shape].
  - by apply zero_tail_push.
  - by apply zero_tail_push.
Qed.

Lemma move_piece_shape (self : ChessTensor Board) (move : Move) :
  shape3 119 (representation self) -> shape3 119 (black_representation self) ->
  shape3 119 (representation (move_piece self move).2)
  /\ shape3 119 (black_representation (move_piece self move).2).
Proof.
  intros Hr Hb. destruct (decide (move ∈ legal_moves (board self))) as [Hm|Hm].
  - rewrite (move_piece_legal self move Hm). cbv zeta.
    cbn [snd representation black_representation].
    pose proof (current_tensor_shape (push (board self) move)
      (is_repetition (push (board self) move) 2)
      (is_repetition (push (board self) move) 3)) as Hcur.
    pose proof (swapped_frame_shape _ Hcur) as Hswap.
    split; apply shape3_push; try assumption; apply meta_planes_shape.
  - rewrite (move_piece_illegal self move Hm). by split.
Qed.

Lemma play_inv (k : nat) (self self' : ChessTensor Board) (moves : list Move) :
  encoder_inv k self -> play self moves = (Ok (), self') ->
  encoder_inv (k + length moves) self'.
Proof.
  revert k self. induction moves as [|move moves IH]; intros k self Hinv Hplay.
  - simpl in Hplay. injection Hplay as <-. by rewrite Nat.add_0_r.
  - simpl in Hplay.
    destruct (decide (move ∈ legal_moves (board self))) as [Hm|Hm].
    + pose proof (move_piece_inv k self move Hinv Hm) as Hstep.
      rewrite (move_piece_legal self move Hm) in Hplay, Hstep. cbv zeta in *.
      cbn [snd] in Hstep. apply (IH (S k)) in Hplay; [|exact Hstep].
      replace (k + length (move :: moves))%nat with (S k + length moves)%nat
        by (simpl; lia).
      exact Hplay.
    + rewrite (move_piece_illegal self move Hm) in Hplay. discriminate.
Qed.

End EncoderProofs.

(** ** The encoder *)

Lemma torch_flip_rows (t : Tensor3) : torch_flip t [1%nat] = reverse <$> t.
Proof. reflexivity. Qed.

Lemma torch_flip_columns (t : Tensor3) :
  torch_flip t [2%nat] = (fun p : list (list bool) => reverse <$> p) <$> t.
Proof. reflexivity. Qed.

Lemma fmap_reverse_involutive {A} (l : list (list A)) :
  reverse <$> (reverse <$> l) = l.
Proof.
  rewrite <- list_fmap_compose. rewrite <- (list_fmap_id l) at 2.
  apply list_fmap_ext. intros _ r _. apply reverse_involutive.
Qed.

Section EncoderTheorems.

Context {Board : Type} `{RulesEngine Board}.

(** C7. After [start_board] and any sequence of applied moves, both
    perspective tensors have shape [119, 8, 8], with [119 = M * T + L];
    a further [move_piece] call keeps the shape; and when fewer than [T]
    plies were applied, the history frames past the plies played are
    zero. *)
Theorem representation_shape_and_history (chess960 : bool) (rnd : Z)
    (moves : list Move) (self : ChessTensor Board) :
  play (start_board chess960 rnd) moves = (Ok (), self) ->
  (shape3 (Z.to_nat (M * T + L)) (representation self)
   /\ shape3 (Z.to_nat (M * T + L)) (black_representation self)) /\
  (forall move,
     shape3 (Z.to_nat (M * T + L)) (representation (move_piece self move).2)
     /\ shape3 (Z.to_nat (M * T + L)) (black_representation (move_piece self move).2)) /\
  (forall f, (length moves < f < Z.to_nat T)%nat ->
     history_frame (representation self) f = zeros3 (Z.to_nat M)
     /\ history_frame (black_representation self) f = zeros3 (Z.to_nat M)).
Proof.
  intros Hplay. change (Z.to_nat (M * T + L)) with 119%nat.
  change (Z.to_nat T) with 8%nat. change (Z.to_nat M) with 14%nat.
  apply (play_inv 0) in Hplay; [|apply start_board_inv].
  destruct Hplay as (Hr & Hb & Hzr & Hzb). simpl in Hzr, Hzb.
  split; [by split|]. split.
  - intros move. by apply move_piece_shape.
  - intros f Hf. split; eapply zero_tail_frame; eassumption.
Qed.

(** The two counter planes after a legal move: each cell holds whether the
    counter is nonzero. *)
Lemma move_piece_counter_planes (self : ChessTensor Board) (move : Move) :
  shape3 119 (representation self) -> move ∈ legal_moves (board self) ->
  let self' := (move_piece self move).2 in
  representation self' !! 113%nat
    = Some (full_plane (bool_of_int (move_stack_len (board self')))) /\
  representation self' !! 118%nat
    = Some (full_plane (bool_of_int (halfmove_clock (board self')))).
Proof.
  intros [Hl _] Hm. rewrite (move_piece_legal self move Hm). cbv zeta.
  cbn [snd representation board].
  set (b := push (board self) move).
  pose proof (current_tensor_shape b (is_repetition b 2) (is_repetition b 3)) as [Hc _].
  destruct (meta_planes_counters true (move_stack_len b)
    (has_kingside_castling_rights b WHITE) (has_queenside_castling_rights b WHITE)
    (has_kingside_castling_rights b BLACK) (has_queenside_castling_rights b BLACK)
    (halfmove_clock b)) as [H1 H6].
  change (-21) with (- Z.of_nat 21). rewrite slice_until_neg by lia.
  split.
  - rewrite lookup_app_r by lia. rewrite Hc.
    rewrite lookup_app_r by (rewrite length_take; lia).
    rewrite length_take, Hl. exact H1.
  - rewrite lookup_app_r by lia. rewrite Hc.
    rewrite lookup_app_r by (rewrite length_take; lia).
    rewrite length_take, Hl. exact H6.
Qed.


(** C8. [get_representation] flips the stored tensor of the side to move
    along one axis, rows for the first colour and columns for the second,
    and flipping any tensor twice along that axis gives it back. *)
Theorem get_representation_flip_involutive (self : ChessTensor Board) :
  get_representation self
    = torch_flip (if turn (board self) then representation self
                  else black_representation self)
                 (perspective_dims (turn (board self))) /\
  forall (color : Color) (t : Tensor3),
    torch_flip (torch_flip t (perspective_dims color)) (perspective_dims color) = t.
Proof.
  split.
  - unfold get_representation, perspective_dims. by destruct (turn (board self)).
  - intros color t. destruct color; unfold perspective_dims.
    + rewrite !torch_flip_rows. apply fmap_reverse_involutive.
    + rewrite !torch_flip_columns.
      rewrite <- list_fmap_compose. rewrite <- (list_fmap_id t) at 2.
      apply list_fmap_ext. intros _ p _. apply fmap_reverse_involutive.
Qed.

End EncoderTheorems.

(** The state after the three plies of [Mini.opening]. *)
Lemma representation_shape_and_history_witness :
  (shape3 (Z.to_nat (M * T + L))
     (representation (play (start_board false 0) Mini.opening).2)
   /\ shape3 (Z.to_nat (M * T + L))
        (black_representation (play (start_board false 0) Mini.opening).2)) /\
  (forall move,
     shape3 (Z.to_nat (M * T + L))
       (representation
          (move_piece (play (start_board false 0) Mini.opening).2 move).2)
     /\ shape3 (Z.to_nat (M * T + L))
          (black_representation
             (move_piece (play (start_board false 0) Mini.opening).2 move).2)) /\
  (forall f, (length Mini.opening < f < Z.to_nat T)%nat ->
     history_frame (representation (play (start_board false 0) Mini.opening).2) f
       = zeros3 (Z.to_nat M)
     /\ history_frame
          (black_representation (play (start_board false 0) Mini.opening).2) f
        = zeros3 (Z.to_nat M)).
Proof.
  apply (representation_shape_and_history false 0 Mini.opening
           (play (start_board false 0) Mini.opening).2).
  vm_compute. reflexivity.
Defined.


(** C3. Seven plies of knight moves, none a capture or a pawn move: the
    half-move clock and the ply count are both 7, and the two counter
    planes hold [True] in every cell, which reads as 1, in both views. *)
Theorem counter_planes_truncated :
  let run := play (start_board false 0) Mini.knight_dance in
  run.1 = Ok () /\
  halfmove_clock (board run.2) = 7 /\
  move_stack_len (board run.2) = 7 /\
  representation run.2 !! 113%nat = Some (full_plane true) /\
  representation run.2 !! 118%nat = Some (full_plane true) /\
  black_representation run.2 !! 113%nat = Some (full_plane true) /\
  black_representation run.2 !! 118%nat = Some (full_plane true) /\
  Z.b2z true = 1.
Proof. vm_compute. repeat split. Qed.

(** ** More on single encodings and decodings *)

Lemma encode_check_all : for_all_moves encode_check = true.
Proof. vm_compute. reflexivity. Qed.

Lemma decode_check_all : for_all_indices decode_check = true.
Proof. vm_compute. reflexivity. Qed.

Lemma for_all_indices_spec (P : Color -> Z -> bool) :
  for_all_indices P = true -> forall c i, 0 <= i < 4672 -> P c i = true.
Proof.
  unfold for_all_indices, all_indices. intros H c i Hi.
  rewrite forallb_forall in H.
  assert (Hc : In c [true; false]) by (destruct c; simpl; tauto).
  specialize (H c Hc). rewrite forallb_forall in H. apply H.
  apply list_elem_of_In, elem_of_seqZ. lia.
Qed.

Lemma error_eqb_eq e1 e2 : error_eqb e1 e2 = true -> e1 = e2.
Proof. destruct e1, e2; simpl; congruence. Qed.

Lemma index_result_eqb_eq r1 r2 : index_result_eqb r1 r2 = true -> r1 = r2.
Proof.
  destruct r1 as [i|e1], r2 as [j|e2]; simpl; try discriminate.
  - intros H. apply Z.eqb_eq in H. by subst.
  - intros H. apply error_eqb_eq in H. by subst.
Qed.

(** X1. Which moves [action_index] accepts.  Between squares of the board
    it returns an index of [0, 4672) exactly for the queen-line and
    knight-jump displacements and for an underpromotion that stays in
    place; every other move, the null move among them, raises
    [KeyError]. *)
Theorem action_index_defined_iff (c : Color) (m : Move) :
  on_board (from_square m) = true -> on_board (to_square m) = true ->
  (valid_displacement m = true
   \/ (from_square m = to_square m /\ underpromotion m = true) ->
   exists i, action_index m c = Ok i /\ 0 <= i < 4672) /\
  (valid_displacement m = false ->
   ~ (from_square m = to_square m /\ underpromotion m = true) ->
   action_index m c = Err KeyError).
Proof.
  intros Hf Ht.
  pose proof (for_all_moves_spec _ encode_check_all c m Hf Ht) as H.
  unfold encode_check in H. apply andb_prop in H as [H _].
  destruct (action_index m c) as [i|e].
  - apply andb_prop in H as [Hr Hcase]. split.
    + intros _. exists i. split; [reflexivity|]. by apply in_action_space_range.
    + intros Hv Hd. exfalso. apply orb_prop in Hcase as [Hc|Hc]; [congruence|].
      apply andb_prop in Hc as [Hc1 Hc2]. apply Z.eqb_eq in Hc1. by apply Hd.
  - apply andb_prop in H as [H Hd]. apply andb_prop in H as [He Hv].
    apply error_eqb_eq in He. subst e.
    apply negb_true_iff in Hv, Hd. split; [|reflexivity].
    intros [Hv'|[Heq Hu]]; [congruence|].
    apply Z.eqb_eq in Heq. rewrite Heq, Hu in Hd. discriminate.
Qed.

(** The null move [Move.null()]. *)
Lemma action_index_defined_iff_witness :
  (valid_displacement (mkMove 0 0 None) = true
   \/ (from_square (mkMove 0 0 None) = to_square (mkMove 0 0 None)
       /\ underpromotion (mkMove 0 0 None) = true) ->
   exists i, action_index (mkMove 0 0 None) WHITE = Ok i /\ 0 <= i < 4672) /\
  (valid_displacement (mkMove 0 0 None) = false ->
   ~ (from_square (mkMove 0 0 None) = to_square (mkMove 0 0 None)
      /\ underpromotion (mkMove 0 0 None) = true) ->
   action_index (mkMove 0 0 None) WHITE = Err KeyError).
Proof. apply (action_index_defined_iff WHITE (mkMove 0 0 None)); reflexivity. Defined.

(** X2. The two frames are one board turned by 180 degrees.  Encoding a move
    for Black gives what encoding the rotated move for White gives, the
    error included. *)
Theorem action_index_black_is_rotated_white (m : Move) :
  on_board (from_square m) = true -> on_board (to_square m) = true ->
  action_index m BLACK = action_index (rotate_move m) WHITE.
Proof.
  intros Hf Ht.
  pose proof (for_all_moves_spec _ encode_check_all WHITE m Hf Ht) as H.
  unfold encode_check in H. apply andb_prop in H as [_ H].
  by apply index_result_eqb_eq.
Qed.

Lemma action_index_black_is_rotated_white_witness :
  action_index e2d1r BLACK = action_index (rotate_move e2d1r) WHITE.
Proof. apply (action_index_black_is_rotated_white e2d1r); reflexivity. Defined.

Lemma decode_outcome_ok_cases r :
  decode_outcome_ok r = true ->
  r = Err IndexError
  \/ exists m, r = Ok m /\ on_board (from_square m) = true
       /\ on_board (to_square m) = true /\ from_square m <> to_square m.
Proof.
  destruct r as [m|e]; simpl; intros H.
  - right. exists m. apply andb_prop in H as [H Hne]. apply andb_prop in H as [Hf Ht].
    apply negb_true_iff, Z.eqb_neq in Hne. auto.
  - left. apply error_eqb_eq in H. by subst.
Qed.

Lemma decode_move_cases (c : Color) (get : string -> bool) (i : Z) :
  0 <= i < 4672 ->
  decode_move c get i = Err IndexError
  \/ exists m, decode_move c get i = Ok m /\ on_board (from_square m) = true
       /\ on_board (to_square m) = true /\ from_square m <> to_square m.
Proof.
  intros Hi. pose proof (for_all_indices_spec _ decode_check_all c i Hi) as H.
  unfold decode_check in H. apply andb_prop in H as [Htrue Hfalse].
  destruct (queen_key c i) as [k|e] eqn:Hk.
  - destruct (get (k +:+ "q")) eqn:Hg.
    + rewrite (decode_move_get_ext c get (fun _ => true));
        [by apply decode_outcome_ok_cases|].
      intros k' Hk'. congruence.
    + rewrite (decode_move_get_ext c get (fun _ => false));
        [by apply decode_outcome_ok_cases|].
      intros k' Hk'. congruence.
  - rewrite (decode_move_get_ext c get (fun _ => true));
      [by apply decode_outcome_ok_cases|].
    intros k' Hk'. congruence.
Qed.

(** ** Whole vectors: [nonzero], the decoding loop, the mask *)

Lemma elem_of_nonzero_from k (t : Tensor1) i :
  i ∈ nonzero_from k t
  <-> exists (j : nat) x,
        i = k + Z.of_nat j /\ t !! j = Some x /\ Float.is_zero x = false.
Proof.
  revert k. induction t as [|y t IH]; intros k; simpl.
  - split; [intros H; by apply elem_of_nil in H|].
    intros (j & x & _ & Hj & _). discriminate.
  - destruct (Float.is_zero y) eqn:Hy.
    + rewrite IH. split.
      * intros (j & x & -> & Hj & Hx). exists (S j), x. split; [lia|done].
      * intros (j & x & -> & Hj & Hx). destruct j as [|j]; simpl in Hj.
        { injection Hj as ->. congruence. }
        exists j, x. split; [lia|done].
    + rewrite elem_of_cons, IH. split.
      * intros [->|(j & x & -> & Hj & Hx)].
        { exists 0%nat, y. split; [lia|done]. }
        exists (S j), x. split; [lia|done].
      * intros (j & x & -> & Hj & Hx). destruct j as [|j]; simpl in Hj.
        { left. lia. }
        right. exists j, x. split; [lia|done].
Qed.

Lemma elem_of_nonzero (t : Tensor1) i :
  i ∈ nonzero t
  <-> 0 <= i /\ exists x, t !! Z.to_nat i = Some x /\ Float.is_zero x = false.
Proof.
  unfold nonzero. rewrite elem_of_nonzero_from. split.
  - intros (j & x & -> & Hj & Hx). split; [lia|]. exists x.
    replace (Z.to_nat (0 + Z.of_nat j)) with j by lia. done.
  - intros (Hi & x & Hj & Hx). exists (Z.to_nat i), x. split; [lia|done].
Qed.

Lemma nonzero_in_range (t : Tensor1) i :
  i ∈ nonzero t -> 0 <= i < Z.of_nat (length t).
Proof.
  rewrite elem_of_nonzero. intros (Hi & x & Hx & _).
  apply lookup_lt_Some in Hx. lia.
Qed.


Lemma nonzero_zeros n : nonzero (torch_zeros n) = [].
Proof. apply nonzero_from_zeros. Qed.

(** The loop of [tensorToAction] over a list of indices: it returns the
    decoded moves in order, or the first exception. *)
Lemma decode_loop_err (f : Z -> Result Move) (l : list Z) e :
  foldl (fun acc move => chess_moves ← acc; m ← f move; Ok (chess_moves ++ [m]))
        (Err e) l = Err e.
Proof. induction l as [|i l IH]; [reflexivity | exact IH]. Qed.

Lemma decode_loop_cases (f : Z -> Result Move) (l : list Z) (acc : list Move) :
  (exists ms, Forall2 (fun i m => f i = Ok m) l ms
     /\ foldl (fun acc move => chess_moves ← acc; m ← f move; Ok (chess_moves ++ [m]))
              (Ok acc) l = Ok (acc ++ ms))
  \/ (exists i e, i ∈ l /\ f i = Err e
     /\ foldl (fun acc move => chess_moves ← acc; m ← f move; Ok (chess_moves ++ [m]))
              (Ok acc) l = Err e).
Proof.
  revert acc. induction l as [|i l IH]; intros acc.
  - left. exists []. split; [constructor|]. by rewrite app_nil_r.
  - simpl. destruct (f i) as [m|e] eqn:Hfi; simpl.
    + destruct (IH (acc ++ [m])) as [(ms & Hms & Hfold)|(j & e & Hj & Hfj & Hfold)].
      * left. exists (m :: ms). split; [by constructor|].
        rewrite Hfold. by rewrite <- app_assoc.
      * right. exists j, e. split; [by right|]. by split.
    + right. exists i, e. split; [by left|]. split; [assumption|].
      apply decode_loop_err.
Qed.

(** X3. What [tensorToAction] can give on a vector no longer than the action
    space.  It raises [IndexError], or it returns one move for each nonzero
    entry, in index order, each between two distinct squares of the
    board. *)
Theorem tensorToAction_outcomes (t : Tensor1) (c : Color) (q : gmap string bool) :
  (length t <= 4672)%nat ->
  tensorToAction t c q = Err IndexError
  \/ exists ms, tensorToAction t c q = Ok ms
       /\ Forall2 (fun i m => decode_move c (dict_get_default q) i = Ok m) (nonzero t) ms
       /\ Forall (fun m => on_board (from_square m) = true
                           /\ on_board (to_square m) = true
                           /\ from_square m <> to_square m) ms.
Proof.
  intros Hlen. unfold tensorToAction.
  destruct (decode_loop_cases (decode_move c (dict_get_default q)) (nonzero t) [])
    as [(ms & Hms & Hfold)|(i & e & Hi & Hfi & Hfold)].
  - right. exists ms. split; [exact Hfold|]. split; [exact Hms|].
    apply Forall_forall. intros m Hm.
    apply list_elem_of_lookup in Hm as [n Hn].
    destruct (Forall2_lookup_r _ _ _ _ _ Hms Hn) as (i & Hi & Hdec).
    apply list_elem_of_lookup_2, nonzero_in_range in Hi.
    destruct (decode_move_cases c (dict_get_default q) i) as [He|(m' & Hm' & Hok)];
      [lia|congruence|].
    rewrite Hdec in Hm'. injection Hm' as <-. exact Hok.
  - left. rewrite Hfold. f_equal.
    apply nonzero_in_range in Hi.
    destruct (decode_move_cases c (dict_get_default q) i) as [He|(m' & Hm' & _)];
      [lia|congruence|congruence].
Qed.

(** The vector [0.0, 5.0, 0.0, 7.0]. *)
Lemma tensorToAction_outcomes_witness :
  tensorToAction [Float.f32 0; Float.f32 5; Float.f32 0; Float.f32 7] BLACK ∅
    = Err IndexError
  \/ exists ms,
       tensorToAction [Float.f32 0; Float.f32 5; Float.f32 0; Float.f32 7] BLACK ∅
         = Ok ms
       /\ Forall2 (fun i m => decode_move BLACK (dict_get_default ∅) i = Ok m)
            (nonzero [Float.f32 0; Float.f32 5; Float.f32 0; Float.f32 7]) ms
       /\ Forall (fun m => on_board (from_square m) = true
                           /\ on_board (to_square m) = true
                           /\ from_square m <> to_square m) ms.
Proof.
  apply (tensorToAction_outcomes
           [Float.f32 0; Float.f32 5; Float.f32 0; Float.f32 7] BLACK ∅).
  simpl. lia.
Defined.

(** X4. The empty cases.  An all-zero vector of any length decodes to no
    move at all, whatever the colour and the side-set, and an empty move
    list or dict gives the all-zero vector and an empty side-set. *)
Theorem empty_mask_and_decoding (n : nat) (c : Color) (q : gmap string bool) :
  tensorToAction (torch_zeros n) c q = Ok []
  /\ actionsToTensor (MoveList []) c = Ok (torch_zeros ACTIONS, ∅)
  /\ actionsToTensor (MoveDict []) c = Ok (torch_zeros ACTIONS, ∅).
Proof.
  split; [|split; reflexivity].
  unfold tensorToAction. by rewrite nonzero_zeros.
Qed.
















(** ** The encoder: cells of the piece planes *)

Lemma cell3_set3_eq (t : Tensor3) (c r k : Z) (v x : bool) :
  cell3 t (Z.to_nat c) (Z.to_nat r) (Z.to_nat k) = Some x ->
  cell3 (set3 t c r k v) (Z.to_nat c) (Z.to_nat r) (Z.to_nat k) = Some v.
Proof.
  unfold cell3, set3. rewrite list_lookup_alter_eq.
  destruct (t !! Z.to_nat c) as [p|]; simpl; [|discriminate].
  rewrite list_lookup_alter_eq.
  destruct (p !! Z.to_nat r) as [rw|]; simpl; [|discriminate].
  intros Hx. apply list_lookup_insert_eq. by apply lookup_lt_Some in Hx.
Qed.

Lemma cell3_set3_ne (t : Tensor3) (c r k : Z) (v : bool) (ch row col : nat) :
  ~ (ch = Z.to_nat c /\ row = Z.to_nat r /\ col = Z.to_nat k) ->
  cell3 (set3 t c r k v) ch row col = cell3 t ch row col.
Proof.
  intros Hne. unfold cell3, set3.
  destruct (decide (Z.to_nat c = ch)) as [<-|Hc];
    [|by rewrite list_lookup_alter_ne].
  rewrite list_lookup_alter_eq.
  destruct (t !! Z.to_nat c) as [p|]; simpl; [|reflexivity].
  destruct (decide (Z.to_nat r = row)) as [<-|Hr];
    [|by rewrite list_lookup_alter_ne].
  rewrite list_lookup_alter_eq.
  destruct (p !! Z.to_nat r) as [rw|]; simpl; [|reflexivity].
  apply list_lookup_insert_ne. intros <-. by apply Hne.
Qed.

Lemma cell3_ext (t u : Tensor3) (ch ch' row col : nat) :
  t !! ch = u !! ch' -> cell3 t ch row col = cell3 u ch' row col.
Proof. intros Heq. unfold cell3. by rewrite Heq. Qed.

Lemma cell3_zeros (n ch row col : nat) :
  (ch < n)%nat -> (row < 8)%nat -> (col < 8)%nat ->
  cell3 (zeros3 n) ch row col = Some false.
Proof.
  intros Hc Hr Hk. unfold cell3, zeros3, full_plane.
  rewrite lookup_replicate_2 by assumption. cbn [mbind option_bind].
  rewrite lookup_replicate_2 by assumption. cbn [mbind option_bind].
  by apply lookup_replicate_2.
Qed.

Lemma existsb_single (s : Z) (Q : Z -> bool) (l : list Z) :
  s ∈ l -> existsb (fun sq => (sq =? s) && Q sq) l = Q s.
Proof.
  intros Hin. apply eq_true_iff_eq. rewrite existsb_exists. split.
  - intros (sq & _ & Hsq). apply andb_prop in Hsq as [Heq Hq].
    apply Z.eqb_eq in Heq. by subst.
  - intros Hq. exists s. split; [by apply list_elem_of_In|].
    by rewrite Z.eqb_refl.
Qed.

Lemma order_range (p : PieceType) (c : Color) : 0 <= piece_channel p c < 12.
Proof. unfold piece_channel. destruct p, c; simpl; lia. Qed.

Section CellProofs.

Context {Board : Type} `{RulesEngine Board}.

Lemma board_fold_cells (b : Board) (l : list Z) (t : Tensor3)
    (ch row col : nat) (x : bool) :
  (forall sq, sq ∈ l -> 0 <= sq < 64) -> (col < 8)%nat ->
  cell3 t ch row col = Some x ->
  cell3 (foldl (fun representation square =>
                  match piece_at b square with
                  | Some (piece_type, color) =>
                      set3 representation (piece_channel piece_type color)
                        (square / 8) (square mod 8) true
                  | None => representation
                  end) t l) ch row col
    = Some (x || existsb (fun sq => (sq =? 8 * Z.of_nat row + Z.of_nat col)
                                    && holds_channel (piece_at b sq) ch) l).
Proof.
  intros Hl Hcol. revert t x.
  induction l as [|sq l IH]; intros t x Ht.
  - simpl. by rewrite orb_false_r.
  - simpl foldl. simpl existsb. rewrite orb_assoc.
    assert (Hsq : 0 <= sq < 64) by (apply Hl; left).
    apply IH; [intros sq' Hin; apply Hl; by right|].
    destruct (piece_at b sq) as [[p c]|] eqn:Hp; simpl holds_channel.
    + pose proof (order_range p c) as Hch.
      destruct (decide (ch = Z.to_nat (piece_channel p c)
                        /\ row = Z.to_nat (sq / 8)
                        /\ col = Z.to_nat (sq mod 8))) as [(-> & -> & ->)|Hne].
      * rewrite (cell3_set3_eq _ _ _ _ true x Ht).
        replace (sq =? _) with true; [|symmetry; apply Z.eqb_eq].
        -- replace (piece_channel p c =? _) with true by (symmetry; apply Z.eqb_eq; lia).
           by rewrite orb_true_r.
        -- rewrite !Z2Nat.id; [|apply Z.mod_pos_bound; lia|apply Z.div_pos; lia].
           pose proof (Z.div_mod sq 8). lia.
      * rewrite cell3_set3_ne by assumption. rewrite Ht.
        replace (_ && _) with false; [by rewrite orb_false_r|].
        symmetry. apply not_true_is_false. intros Hand.
        apply andb_prop in Hand as [Heq Hc]. apply Z.eqb_eq in Heq, Hc.
        apply Hne. split; [lia|].
        assert (sq / 8 = Z.of_nat row /\ sq mod 8 = Z.of_nat col) as [-> ->].
        { rewrite Heq. split.
          - rewrite Z.mul_comm, Z.div_add_l by lia. rewrite Z.div_small by lia. lia.
          - rewrite Z.mul_comm, Z.add_comm, Z.mod_add by lia. apply Z.mod_small. lia. }
        rewrite !Nat2Z.id. by split.
    + rewrite Ht. by rewrite andb_false_r, orb_false_r.
Qed.

Lemma board_cells (b : Board) (ch row col : nat) :
  (ch < 12)%nat -> (row < 8)%nat -> (col < 8)%nat ->
  cell3 (board_to_tensor b) ch row col
    = Some (holds_channel (piece_at b (8 * Z.of_nat row + Z.of_nat col)) ch).
Proof.
  intros Hc Hr Hk.
  pose proof (board_fold_cells b SQUARES (zeros3 12) ch row col false) as Hf.
  unfold board_to_tensor. cbv zeta.
  unfold piece_channel in Hf. rewrite Hf.
  - rewrite orb_false_l. f_equal.
    apply (existsb_single _ (fun sq => holds_channel (piece_at b sq) ch)).
    unfold SQUARES. apply elem_of_seqZ. lia.
  - intros sq Hin. unfold SQUARES in Hin. apply elem_of_seqZ in Hin. lia.
  - assumption.
  - by apply cell3_zeros.
Qed.

End CellProofs.

(** ** The encoder: history frames and the two views *)

Lemma history_push (cur t meta : Tensor3) :
  length cur = 14%nat -> length t = 119%nat ->
  history_frame (cur ++ slice_until t (-21) ++ meta) 0 = cur /\
  forall f, (f < 7)%nat ->
    history_frame (cur ++ slice_until t (-21) ++ meta) (S f) = history_frame t f.
Proof.
  intros Hc Ht. unfold history_frame. split.
  - rewrite Nat.mul_0_r, drop_0. apply take_app_length'. lia.
  - intros f Hf. change (-21) with (- Z.of_nat 21). rewrite slice_until_neg by lia.
    apply list_eq. intros i. destruct (decide (i < 14)%nat) as [Hi|Hi].
    + rewrite !lookup_take_lt by assumption. rewrite !lookup_drop.
      rewrite lookup_app_r by lia. rewrite Hc.
      rewrite lookup_app_l by (rewrite length_take; lia).
      rewrite lookup_take_lt by lia. f_equal. lia.
    + by rewrite !lookup_take_ge by lia.
Qed.

Lemma meta_push (cur t meta : Tensor3) :
  length cur = 14%nat -> length t = 119%nat ->
  drop 112 (cur ++ slice_until t (-21) ++ meta) = meta.
Proof.
  intros Hc Ht. change (-21) with (- Z.of_nat 21). rewrite slice_until_neg by lia.
  rewrite app_assoc. apply drop_app_length'.
  rewrite length_app, length_take. lia.
Qed.

Lemma swap_frame_unfold (cur : Tensor3) :
  slice3 cur 6 12 ++ slice3 cur 0 6 ++ slice_from cur 12 = swap_frame cur.
Proof. reflexivity. Qed.

Lemma swap_frame_zeros : swap_frame (zeros3 14) = zeros3 14.
Proof. reflexivity. Qed.

Lemma swap_frame_lookup (cur : Tensor3) (ch : nat) :
  (12 <= length cur)%nat -> (ch < 12)%nat ->
  swap_frame cur !! ch = cur !! swap_channel ch.
Proof.
  intros Hl Hc. unfold swap_frame, swap_channel, slice3, slice_from.
  destruct (Nat.ltb_spec ch 6).
  - rewrite lookup_app_l by (rewrite length_take, length_drop; lia).
    rewrite lookup_take_lt by lia. rewrite lookup_drop. f_equal. lia.
  - rewrite lookup_app_r by (rewrite length_take, length_drop; lia).
    rewrite length_take, length_drop.
    rewrite lookup_app_l by (rewrite length_take, length_drop; lia).
    rewrite lookup_take_lt by lia. rewrite lookup_drop. f_equal. lia.
Qed.

Lemma meta_planes_lookups plies k1 q1 k2 q2 clock :
  meta_planes true plies k1 q1 k2 q2 clock !! 0%nat = Some (full_plane true) /\
  meta_planes false plies k2 q2 k1 q1 clock !! 0%nat = Some (full_plane false) /\
  meta_planes true plies k1 q1 k2 q2 clock !! 1%nat
    = meta_planes false plies k2 q2 k1 q1 clock !! 1%nat /\
  meta_planes true plies k1 q1 k2 q2 clock !! 6%nat
    = meta_planes false plies k2 q2 k1 q1 clock !! 6%nat /\
  meta_planes true plies k1 q1 k2 q2 clock !! 2%nat
    = meta_planes false plies k2 q2 k1 q1 clock !! 4%nat /\
  meta_planes true plies k1 q1 k2 q2 clock !! 3%nat
    = meta_planes false plies k2 q2 k1 q1 clock !! 5%nat /\
  meta_planes true plies k1 q1 k2 q2 clock !! 4%nat
    = meta_planes false plies k2 q2 k1 q1 clock !! 2%nat /\
  meta_planes true plies k1 q1 k2 q2 clock !! 5%nat
    = meta_planes false plies k2 q2 k1 q1 clock !! 3%nat.
Proof. unfold meta_planes. destruct k1, q1, k2, q2; repeat split; reflexivity. Qed.

Lemma cell3_flip_rows (t : Tensor3) (n ch row col : nat) :
  shape3 n t -> (row < 8)%nat ->
  cell3 (torch_flip t [1%nat]) ch row col = cell3 t ch (7 - row) col.
Proof.
  intros [_ Ht] Hr. rewrite torch_flip_rows. unfold cell3.
  rewrite list_lookup_fmap. destruct (t !! ch) as [p|] eqn:Hp; [|reflexivity].
  cbn [fmap option_fmap option_map mbind option_bind].
  apply (Forall_lookup_1 _ _ _ _ Ht) in Hp as [Hl _].
  rewrite reverse_lookup by lia. rewrite Hl.
  by replace (8 - S row)%nat with (7 - row)%nat by lia.
Qed.

Lemma cell3_flip_columns (t : Tensor3) (n ch row col : nat) :
  shape3 n t -> (col < 8)%nat ->
  cell3 (torch_flip t [2%nat]) ch row col = cell3 t ch row (7 - col).
Proof.
  intros [_ Ht] Hk. rewrite torch_flip_columns. unfold cell3.
  rewrite list_lookup_fmap. destruct (t !! ch) as [p|] eqn:Hp; [|reflexivity].
  cbn [fmap option_fmap option_map mbind option_bind].
  apply (Forall_lookup_1 _ _ _ _ Ht) in Hp as [_ Hrows].
  rewrite list_lookup_fmap. destruct (p !! row) as [r|] eqn:Hrw; [|reflexivity].
  cbn [fmap option_fmap option_map mbind option_bind].
  apply (Forall_lookup_1 _ _ _ _ Hrows) in Hrw.
  rewrite reverse_lookup by lia. rewrite Hrw.
  by replace (8 - S col)%nat with (7 - col)%nat by lia.
Qed.

Lemma list_getitem_first {A} (l : list A) :
  Py.list_getitem l 0 = match l with [] => Err IndexError | a :: _ => Ok a end.
Proof.
  unfold Py.list_getitem, Py.norm_index. destruct l as [|a l]; [reflexivity|].
  change (0 <? 0) with false. cbv iota.
  destruct (Z.ltb_spec 0 (Z.of_nat (length (a :: l)))) as [_|Hn];
    [reflexivity|simpl in Hn; lia].
Qed.

Section ViewProofs.

Context {Board : Type} `{RulesEngine Board}.

Lemma play_invariant (P : ChessTensor Board -> Prop) :
  (forall self move, P self -> move ∈ legal_moves (board self) ->
     P (move_piece self move).2) ->
  forall moves self self', P self -> play self moves = (Ok (), self') -> P self'.
Proof.
  intros Hstep moves. induction moves as [|move moves IH]; intros self self' HP Hplay.
  - simpl in Hplay. by injection Hplay as <-.
  - simpl in Hplay. destruct (decide (move ∈ legal_moves (board self))) as [Hm|Hm].
    + pose proof (Hstep self move HP Hm) as HP'.
      rewrite (move_piece_legal self move Hm) in Hplay, HP'. cbv zeta in *.
      cbn [snd] in HP'. by apply (IH _ _ HP' Hplay).
    + rewrite (move_piece_illegal self move Hm) in Hplay. discriminate.
Qed.

Lemma start_board_views (chess960 : bool) (rnd : Z) :
  views_inv (start_board chess960 rnd).
Proof.
  destruct (start_board_inv chess960 rnd) as (Hr & Hb & Hzr & Hzb).
  split; [exact Hr|]. split; [exact Hb|].
  clear Hr Hb. revert Hzr Hzb. unfold start_board. cbv zeta.
  set (b := if chess960 then from_chess960_pos rnd else new_board).
  cbn [representation black_representation board].
  change (Z.to_nat (M * (T - 1))) with 98%nat.
  pose proof (board_to_tensor_shape b) as [Hbt _].
  assert (Hcur : length (board_to_tensor b ++ zeros3 2) = 14%nat).
  { rewrite length_app, Hbt. reflexivity. }
  assert (Hsw : swap_frame (board_to_tensor b ++ zeros3 2)
                = slice3 (board_to_tensor b ++ zeros3 2) 6 12
                    ++ slice3 (board_to_tensor b ++ zeros3 2) 0 6 ++ zeros3 2).
  { unfold swap_frame, slice_from. rewrite (drop_app_length' _ _ 12) by lia.
    reflexivity. }
  assert (Hswl : length (swap_frame (board_to_tensor b ++ zeros3 2)) = 14%nat).
  { unfold swap_frame, slice3, slice_from.
    rewrite !length_app, !length_take, !length_drop, Hcur. reflexivity. }
  rewrite (app3_assoc (slice3 _ 6 12) (slice3 _ 0 6) (zeros3 2)), <- Hsw.
  intros Hzr Hzb. split; [|split].
  - intros [|f] Hf.
    + unfold history_frame. rewrite Nat.mul_0_r, !drop_0.
      rewrite !take_app_length' by lia. reflexivity.
    + rewrite (zero_tail_frame 0 (S f) _ Hzr) by lia.
      rewrite (zero_tail_frame 0 (S f) _ Hzb) by lia.
      by rewrite swap_frame_zeros.
  - rewrite <- app_assoc. apply take_app_length'. lia.
  - exists 0, true, true, true, true, 0. split.
    + rewrite app_assoc. apply drop_app_length'.
      rewrite length_app, Hcur. reflexivity.
    + rewrite app_assoc. apply drop_app_length'.
      rewrite length_app, Hswl. reflexivity.
Qed.

Lemma move_piece_views (self : ChessTensor Board) (move : Move) :
  views_inv self -> move ∈ legal_moves (board self) ->
  views_inv (move_piece self move).2.
Proof.
  intros (Hr & Hb & Hfr & _ & _) Hm.
  rewrite (move_piece_legal self move Hm). cbv zeta.
  cbn [snd]. unfold views_inv. cbn [representation black_representation board].
  set (b := push (board self) move).
  set (cur := board_to_tensor b ++ flag_plane (is_repetition b 2)
                ++ flag_plane (is_repetition b 3)).
  pose proof (swap_frame_unfold cur) as Hsw.
  pose proof (current_tensor_shape b (is_repetition b 2) (is_repetition b 3)) as Hcur.
  fold cur in Hcur.
  pose proof (swapped_frame_shape _ Hcur) as Hswap.
  rewrite Hsw in Hswap |- *.
  pose proof (board_to_tensor_shape b) as [Hbt _].
  destruct Hcur as [Hcl Hcf]. destruct Hswap as [Hsl Hsf].
  destruct Hr as [Hrl Hrf]. destruct Hb as [Hbl Hbf].
  split; [|split; [|split; [|split]]].
  - apply shape3_push; [by split|by split|apply meta_planes_shape].
  - apply shape3_push; [by split|by split|apply meta_planes_shape].
  - intros [|f] Hf.
    + rewrite (proj1 (history_push cur _ _ Hcl Hrl)).
      by rewrite (proj1 (history_push (swap_frame cur) _ _ Hsl Hbl)).
    + rewrite (proj2 (history_push cur _ _ Hcl Hrl)) by lia.
      rewrite (proj2 (history_push (swap_frame cur) _ _ Hsl Hbl)) by lia.
      apply Hfr. lia.
  - unfold cur. rewrite <- app_assoc. apply take_app_length'. lia.
  - eexists _, _, _, _, _, _. split; by apply meta_push.
Qed.

Lemma reachable_views (chess960 : bool) (rnd : Z) (moves : list Move)
    (self : ChessTensor Board) :
  play (start_board chess960 rnd) moves = (Ok (), self) -> views_inv self.
Proof.
  apply (play_invariant views_inv); [apply move_piece_views|apply start_board_views].
Qed.

Lemma view_cells (self : ChessTensor Board) (ch row col : nat) :
  views_inv self -> (ch < 12)%nat -> (row < 8)%nat -> (col < 8)%nat ->
  cell3 (representation self) ch row col
    = Some (holds_channel (piece_at (board self) (8 * Z.of_nat row + Z.of_nat col)) ch)
  /\ cell3 (black_representation self) ch row col
    = Some (holds_channel (piece_at (board self) (8 * Z.of_nat row + Z.of_nat col))
              (swap_channel ch)).
Proof.
  intros ([Hrl _] & [Hbl _] & Hfr & Htake & _) Hc Hr Hk.
  assert (Hw : forall ch', (ch' < 12)%nat ->
            representation self !! ch' = board_to_tensor (board self) !! ch').
  { intros ch' Hc'. rewrite <- Htake. by rewrite lookup_take_lt. }
  split.
  - rewrite (cell3_ext _ _ ch ch row col (Hw ch Hc)). by apply board_cells.
  - assert (Hs : (swap_channel ch < 12)%nat).
    { unfold swap_channel. destruct (Nat.ltb_spec ch 6); lia. }
    pose proof (Hfr 0%nat ltac:(lia)) as H0. unfold history_frame in H0.
    rewrite Nat.mul_0_r, !drop_0 in H0.
    assert (Hb : black_representation self !! ch
                 = board_to_tensor (board self) !! swap_channel ch).
    { rewrite <- (lookup_take_lt _ 14) by lia. rewrite H0.
      rewrite swap_frame_lookup; [|rewrite length_take; lia|assumption].
      rewrite lookup_take_lt by lia. by apply Hw. }
    rewrite (cell3_ext _ _ ch (swap_channel ch) row col Hb). by apply board_cells.
Qed.


Lemma play_app (self : ChessTensor Board) (l1 l2 : list Move) :
  play self (l1 ++ l2)
    = match play self l1 with
      | (Ok _, self') => play self' l2
      | (Err e, self') => (Err e, self')
      end.
Proof.
  revert self. induction l1 as [|m l1 IH]; intros self; [reflexivity|].
  simpl. destruct (move_piece self m) as [[[]|e] self']; [apply IH|reflexivity].
Qed.

(** X8. Cell [channel, row, col] of [__board_to_tensor] holds exactly when
    the square [8 * row + col] carries the piece of that channel: the
    piece type's [order], plus 6 for a black piece. *)
Theorem board_to_tensor_cells (b : Board) (ch row col : nat) :
  (ch < 12)%nat -> (row < 8)%nat -> (col < 8)%nat ->
  cell3 (board_to_tensor b) ch row col
    = Some (holds_channel (piece_at b (8 * Z.of_nat row + Z.of_nat col)) ch).
Proof. apply board_cells. Qed.

(** X9. A legal [move_piece] shifts the history window of both views by
    one frame: frame 0 becomes the frame of the new position (its piece
    planes and the two repetition planes; exchanged piece groups in the
    black view), frame [f + 1] is the former frame [f], and the former
    frame 7 is dropped. *)
Theorem move_piece_shifts_history (self : ChessTensor Board) (move : Move) :
  length (representation self) = 119%nat ->
  length (black_representation self) = 119%nat ->
  move ∈ legal_moves (board self) ->
  history_frame (representation (move_piece self move).2) 0
    = board_to_tensor (push (board self) move)
        ++ flag_plane (is_repetition (push (board self) move) 2)
        ++ flag_plane (is_repetition (push (board self) move) 3) /\
  history_frame (black_representation (move_piece self move).2) 0
    = swap_frame (history_frame (representation (move_piece self move).2) 0) /\
  forall f, (f < 7)%nat ->
    history_frame (representation (move_piece self move).2) (S f)
      = history_frame (representation self) f /\
    history_frame (black_representation (move_piece self move).2) (S f)
      = history_frame (black_representation self) f.
Proof.
  intros Hrl Hbl Hm. rewrite (move_piece_legal self move Hm). cbv zeta.
  cbn [snd representation black_representation].
  set (b := push (board self) move).
  set (cur := board_to_tensor b ++ flag_plane (is_repetition b 2)
                ++ flag_plane (is_repetition b 3)).
  pose proof (swap_frame_unfold cur) as Hsw.
  pose proof (current_tensor_shape b (is_repetition b 2) (is_repetition b 3)) as Hcur.
  fold cur in Hcur.
  pose proof (swapped_frame_shape _ Hcur) as Hswap.
  rewrite Hsw in Hswap |- *.
  destruct Hcur as [Hcl _]. destruct Hswap as [Hsl _].
  destruct (history_push cur (representation self)
              (meta_planes true (move_stack_len b)
                 (has_kingside_castling_rights b WHITE)
                 (has_queenside_castling_rights b WHITE)
                 (has_kingside_castling_rights b BLACK)
                 (has_queenside_castling_rights b BLACK) (halfmove_clock b))
              Hcl Hrl) as [Hw0 Hw].
  destruct (history_push (swap_frame cur) (black_representation self)
              (meta_planes false (move_stack_len b)
                 (has_kingside_castling_rights b BLACK)
                 (has_queenside_castling_rights b BLACK)
                 (has_kingside_castling_rights b WHITE)
                 (has_queenside_castling_rights b WHITE) (halfmove_clock b))
              Hsl Hbl) as [Hb0 Hb].
  rewrite Hw0, Hb0. split; [reflexivity|]. split; [reflexivity|].
  intros f Hf. by rewrite Hw, Hb.
Qed.

(** X10. After [start_board] and any sequence of applied moves, every
    history frame of the black view is the same frame of the white view
    with the two groups of six piece planes exchanged. *)
Theorem black_view_is_swapped_white_view (chess960 : bool) (rnd : Z)
    (moves : list Move) (self : ChessTensor Board) (f : nat) :
  play (start_board chess960 rnd) moves = (Ok (), self) -> (f < 8)%nat ->
  history_frame (black_representation self) f
    = swap_frame (history_frame (representation self) f).
Proof.
  intros Hplay Hf. apply reachable_views in Hplay as (_ & _ & Hfr & _).
  by apply Hfr.
Qed.

(** X11. After [start_board] and any sequence of applied moves, plane 112
    is all ones in the white view and all zeros in the black view, the
    two counter planes 113 and 118 are the same in both views, and the
    castling planes 114-115 and 116-117 of one view are the planes
    116-117 and 114-115 of the other. *)
Theorem meta_planes_of_the_two_views (chess960 : bool) (rnd : Z)
    (moves : list Move) (self : ChessTensor Board) :
  play (start_board chess960 rnd) moves = (Ok (), self) ->
  representation self !! 112%nat = Some (full_plane true) /\
  black_representation self !! 112%nat = Some (full_plane false) /\
  representation self !! 113%nat = black_representation self !! 113%nat /\
  representation self !! 118%nat = black_representation self !! 118%nat /\
  representation self !! 114%nat = black_representation self !! 116%nat /\
  representation self !! 115%nat = black_representation self !! 117%nat /\
  representation self !! 116%nat = black_representation self !! 114%nat /\
  representation self !! 117%nat = black_representation self !! 115%nat.
Proof.
  intros Hplay.
  apply reachable_views in Hplay
    as (_ & _ & _ & _ & plies & k1 & q1 & k2 & q2 & clock & Hw & Hb).
  assert (Hlw : forall i j, j = (112 + i)%nat ->
            representation self !! j = meta_planes true plies k1 q1 k2 q2 clock !! i).
  { intros i j ->. by rewrite <- lookup_drop, Hw. }
  assert (Hlb : forall i j, j = (112 + i)%nat ->
            black_representation self !! j
              = meta_planes false plies k2 q2 k1 q1 clock !! i).
  { intros i j ->. by rewrite <- lookup_drop, Hb. }
  destruct (meta_planes_lookups plies k1 q1 k2 q2 clock)
    as (H0 & H0' & H1 & H6 & H2 & H3 & H4 & H5).
  rewrite (Hlw 0%nat 112%nat), (Hlb 0%nat 112%nat), (Hlw 1%nat 113%nat),
    (Hlb 1%nat 113%nat), (Hlw 6%nat 118%nat), (Hlb 6%nat 118%nat),
    (Hlw 2%nat 114%nat), (Hlb 4%nat 116%nat), (Hlw 3%nat 115%nat),
    (Hlb 5%nat 117%nat), (Hlw 4%nat 116%nat), (Hlb 2%nat 114%nat),
    (Hlw 5%nat 117%nat), (Hlb 3%nat 115%nat) by reflexivity.
  repeat split; assumption.
Qed.

(** X12. After [start_board] and any sequence of applied moves, plane 112
    of the tensor [get_representation] returns is uniform and tells the
    side to move: ones for the first colour, zeros for the second. *)
Theorem get_representation_side_plane (chess960 : bool) (rnd : Z)
    (moves : list Move) (self : ChessTensor Board) :
  play (start_board chess960 rnd) moves = (Ok (), self) ->
  get_representation self !! 112%nat = Some (full_plane (turn (board self))).
Proof.
  intros Hplay.
  apply reachable_views in Hplay
    as (_ & _ & _ & _ & plies & k1 & q1 & k2 & q2 & clock & Hw & Hb).
  destruct (meta_planes_lookups plies k1 q1 k2 q2 clock) as (H0 & H0' & _).
  rewrite <- Hw in H0. rewrite <- Hb in H0'. rewrite lookup_drop in H0, H0'.
  cbn [Nat.add] in H0, H0'.
  unfold get_representation. destruct (turn (board self)).
  - rewrite torch_flip_rows, list_lookup_fmap. by rewrite H0.
  - rewrite torch_flip_columns, list_lookup_fmap. by rewrite H0'.
Qed.

(** X13. After [start_board] and any sequence of applied moves, the
    twelve newest piece planes of [get_representation] show the board of
    the object.  With the first colour to move, row [r] is rank [8 - r]
    and the channels are those of [__board_to_tensor]; with the second
    colour to move, column [c] is file [8 - c], rows are ranks from the
    first, and the two groups of six channels are exchanged. *)
Theorem get_representation_piece_cells (chess960 : bool) (rnd : Z)
    (moves : list Move) (self : ChessTensor Board) (ch row col : nat) :
  play (start_board chess960 rnd) moves = (Ok (), self) ->
  (ch < 12)%nat -> (row < 8)%nat -> (col < 8)%nat ->
  cell3 (get_representation self) ch row col
    = Some (if turn (board self)
            then holds_channel
                   (piece_at (board self) (8 * (7 - Z.of_nat row) + Z.of_nat col)) ch
            else holds_channel
                   (piece_at (board self) (8 * Z.of_nat row + (7 - Z.of_nat col)))
                   (swap_channel ch)).
Proof.
  intros Hplay Hc Hr Hk. apply reachable_views in Hplay as Hv.
  pose proof Hv as (Hrs & Hbs & _).
  unfold get_representation. destruct (turn (board self)).
  - rewrite (cell3_flip_rows _ 119) by assumption.
    destruct (view_cells self ch (7 - row) col Hv) as [Hw _]; [lia..|].
    rewrite Hw. repeat f_equal. lia.
  - rewrite (cell3_flip_columns _ 119) by assumption.
    destruct (view_cells self ch row (7 - col) Hv) as [_ Hb]; [lia..|].
    rewrite Hb. repeat f_equal. lia.
Qed.

Lemma generate_move_cases (game : ChessTensor Board) :
  match get_move game with
  | [] => generate_move game = (Err IndexError, game)
  | reply :: _ =>
      generate_move game = (Ok reply, (move_piece game reply).2)
      /\ (move_piece game reply).1 = Ok ()
      /\ board (move_piece game reply).2 = push (board game) reply
  end.
Proof.
  unfold generate_move. rewrite list_getitem_first.
  destruct (get_move game) as [|reply l] eqn:Hl; [reflexivity|].
  assert (Hm : reply ∈ legal_moves (board game)).
  { unfold get_move, get_moves in Hl. rewrite Hl. left. }
  rewrite (move_piece_legal game reply Hm). cbv zeta. by cbn [fst snd board].
Qed.

(** X14. [__generate_move] plays the first move [get_move] lists: it
    raises [IndexError] and leaves the game as it is when the list is
    empty; otherwise the inner [move_piece] never raises, the move is
    returned and the board has it pushed. *)
Theorem generate_move_outcomes (game : ChessTensor Board) :
  match get_move game with
  | [] => generate_move game = (Err IndexError, game)
  | reply :: _ =>
      generate_move game = (Ok reply, (move_piece game reply).2)
      /\ (move_piece game reply).1 = Ok ()
      /\ board (move_piece game reply).2 = push (board game) reply
  end.
Proof. apply generate_move_cases. Qed.

(** X16. [start_new_game] for the first colour gives the game of
    [start_board].  For the second colour the program itself plays the
    first legal move of the starting position, so the game is the one
    [move_piece] gives for that move; with no legal move the call raises
    [IndexError]. *)
Theorem start_new_game_outcomes (chess960 : bool) (rnd : Z) :
  start_new_game chess960 rnd WHITE = (Ok (), start_board chess960 rnd) /\
  match legal_moves (board (start_board chess960 rnd)) with
  | [] =>
      start_new_game chess960 rnd BLACK
        = (Err IndexError, start_board chess960 rnd)
  | first :: _ =>
      start_new_game chess960 rnd BLACK = play (start_board chess960 rnd) [first]
      /\ (play (start_board chess960 rnd) [first]).1 = Ok ()
  end.
Proof.
  split; [reflexivity|].
  pose proof (generate_move_cases (start_board chess960 rnd)) as Hg.
  unfold get_move, get_moves in Hg. unfold start_new_game.
  rewrite bool_decide_eq_false_2 by discriminate.
  destruct (legal_moves (board (start_board chess960 rnd))) as [|first l] eqn:Hl.
  - by rewrite Hg.
  - destruct Hg as (Hg & Hok & _). rewrite Hg. cbn [play].
    destruct (move_piece (start_board chess960 rnd) first) as [[[]|e] game'];
      [by split|discriminate].
Qed.

(** X15. [play_move] with a legal move: when the position after it has
    no legal move, the call raises [IndexError] with the user's move
    applied; otherwise it returns the first legal reply, and the game is
    the one [move_piece] gives for the move and then the reply. *)
Theorem play_move_after_legal_move (game : ChessTensor Board) (move : Move) :
  move ∈ legal_moves (board game) ->
  match legal_moves (push (board game) move) with
  | [] =>
      play_move game move = (Err IndexError, (move_piece game move).2)
      /\ board (move_piece game move).2 = push (board game) move
  | reply :: _ =>
      play game [move; reply] = (Ok (), (play game [move; reply]).2)
      /\ play_move game move = (Ok reply, (play game [move; reply]).2)
  end.
Proof.
  intros Hm. unfold play_move. cbn [play].
  pose proof (move_piece_legal game move Hm) as Hstep. cbv zeta in Hstep.
  rewrite Hstep. set (game1 := mkChessTensor (push (board game) move) _ _).
  unfold generate_move. rewrite list_getitem_first.
  unfold get_move, get_moves. change (board game1) with (push (board game) move).
  destruct (legal_moves (push (board game) move)) as [|reply l] eqn:Hl;
    [by split|].
  assert (Hr : reply ∈ legal_moves (board game1)).
  { change (board game1) with (push (board game) move). rewrite Hl. left. }
  pose proof (move_piece_legal game1 reply Hr) as Hstep'. cbv zeta in Hstep'.
  rewrite Hstep'. by split.
Qed.

End ViewProofs.

(** The white king's plane at e1 in the starting position. *)
Lemma board_to_tensor_cells_witness :
  cell3 (board_to_tensor Mini.initial) 5 0 4
    = Some (holds_channel (piece_at Mini.initial (8 * Z.of_nat 0 + Z.of_nat 4)) 5).
Proof. apply (board_to_tensor_cells Mini.initial 5 0 4); lia. Defined.

(** e2e4 from the starting position. *)
Lemma move_piece_shifts_history_witness :
  history_frame
    (representation
       (move_piece (start_board (Board := Mini.MiniBoard) false 0)
          (mkMove 12 28 None)).2) 0
    = board_to_tensor
        (push (board (start_board (Board := Mini.MiniBoard) false 0))
           (mkMove 12 28 None))
        ++ flag_plane
             (is_repetition
                (push (board (start_board (Board := Mini.MiniBoard) false 0))
                   (mkMove 12 28 None)) 2)
        ++ flag_plane
             (is_repetition
                (push (board (start_board (Board := Mini.MiniBoard) false 0))
                   (mkMove 12 28 None)) 3) /\
  history_frame
    (black_representation
       (move_piece (start_board (Board := Mini.MiniBoard) false 0)
          (mkMove 12 28 None)).2) 0
    = swap_frame
        (history_frame
           (representation
              (move_piece (start_board (Board := Mini.MiniBoard) false 0)
                 (mkMove 12 28 None)).2) 0) /\
  forall f, (f < 7)%nat ->
    history_frame
      (representation
         (move_piece (start_board (Board := Mini.MiniBoard) false 0)
            (mkMove 12 28 None)).2) (S f)
      = history_frame
          (representation (start_board (Board := Mini.MiniBoard) false 0)) f /\
    history_frame
      (black_representation
         (move_piece (start_board (Board := Mini.MiniBoard) false 0)
            (mkMove 12 28 None)).2) (S f)
      = history_frame
          (black_representation (start_board (Board := Mini.MiniBoard) false 0)) f.
Proof.
  apply (move_piece_shifts_history (start_board (Board := Mini.MiniBoard) false 0)
           (mkMove 12 28 None)).
  - vm_compute. reflexivity.
  - vm_compute. reflexivity.
  - apply (bool_decide_eq_true_1 (mkMove 12 28 None ∈ Mini.moves Mini.initial)).
    vm_compute. reflexivity.
Defined.

(** The newest frame after the three plies of [Mini.opening]. *)
Lemma black_view_is_swapped_white_view_witness :
  history_frame
    (black_representation (play (start_board false 0) Mini.opening).2) 0
    = swap_frame
        (history_frame (representation (play (start_board false 0) Mini.opening).2) 0).
Proof.
  apply (black_view_is_swapped_white_view false 0 Mini.opening
           (play (start_board false 0) Mini.opening).2 0).
  - vm_compute. reflexivity.
  - lia.
Defined.

Lemma meta_planes_of_the_two_views_witness :
  representation (play (start_board false 0) Mini.opening).2 !! 112%nat
    = Some (full_plane true) /\
  black_representation (play (start_board false 0) Mini.opening).2 !! 112%nat
    = Some (full_plane false) /\
  representation (play (start_board false 0) Mini.opening).2 !! 113%nat
    = black_representation (play (start_board false 0) Mini.opening).2 !! 113%nat /\
  representation (play (start_board false 0) Mini.opening).2 !! 118%nat
    = black_representation (play (start_board false 0) Mini.opening).2 !! 118%nat /\
  representation (play (start_board false 0) Mini.opening).2 !! 114%nat
    = black_representation (play (start_board false 0) Mini.opening).2 !! 116%nat /\
  representation (play (start_board false 0) Mini.opening).2 !! 115%nat
    = black_representation (play (start_board false 0) Mini.opening).2 !! 117%nat /\
  representation (play (start_board false 0) Mini.opening).2 !! 116%nat
    = black_representation (play (start_board false 0) Mini.opening).2 !! 114%nat /\
  representation (play (start_board false 0) Mini.opening).2 !! 117%nat
    = black_representation (play (start_board false 0) Mini.opening).2 !! 115%nat.
Proof.
  apply (meta_planes_of_the_two_views false 0 Mini.opening
           (play (start_board false 0) Mini.opening).2).
  vm_compute. reflexivity.
Defined.

Lemma get_representation_side_plane_witness :
  get_representation (play (start_board false 0) Mini.opening).2 !! 112%nat
    = Some (full_plane (turn (board (play (start_board false 0) Mini.opening).2))).
Proof.
  apply (get_representation_side_plane false 0 Mini.opening
           (play (start_board false 0) Mini.opening).2).
  vm_compute. reflexivity.
Defined.

(** Black is to move after [Mini.opening]: channel 0, row 6, column 0 of
    the returned tensor is a black pawn on h7. *)
Lemma get_representation_piece_cells_witness :
  cell3 (get_representation (play (start_board false 0) Mini.opening).2) 0 6 0
    = Some (if turn (board (play (start_board false 0) Mini.opening).2)
            then holds_channel
                   (piece_at (board (play (start_board false 0) Mini.opening).2)
                      (8 * (7 - Z.of_nat 6) + Z.of_nat 0)) 0
            else holds_channel
                   (piece_at (board (play (start_board false 0) Mini.opening).2)
                      (8 * Z.of_nat 6 + (7 - Z.of_nat 0)))
                   (swap_channel 0)).
Proof.
  apply (get_representation_piece_cells false 0 Mini.opening
           (play (start_board false 0) Mini.opening).2 0 6 0).
  - vm_compute. reflexivity.
  - lia.
  - lia.
  - lia.
Defined.

(** e2e4 from the starting position, answered by the first move listed. *)
Lemma play_move_after_legal_move_witness :
  match legal_moves
          (push (board (start_board (Board := Mini.MiniBoard) false 0))
             (mkMove 12 28 None)) with
  | [] =>
      play_move (start_board (Board := Mini.MiniBoard) false 0) (mkMove 12 28 None)
        = (Err IndexError,
           (move_piece (start_board (Board := Mini.MiniBoard) false 0)
              (mkMove 12 28 None)).2)
      /\ board (move_piece (start_board (Board := Mini.MiniBoard) false 0)
                  (mkMove 12 28 None)).2
         = push (board (start_board (Board := Mini.MiniBoard) false 0))
             (mkMove 12 28 None)
  | reply :: _ =>
      play (start_board (Board := Mini.MiniBoard) false 0) [mkMove 12 28 None; reply]
        = (Ok (),
           (play (start_board (Board := Mini.MiniBoard) false 0)
              [mkMove 12 28 None; reply]).2)
      /\ play_move (start_board (Board := Mini.MiniBoard) false 0) (mkMove 12 28 None)
         = (Ok reply,
            (play (start_board (Board := Mini.MiniBoard) false 0)
               [mkMove 12 28 None; reply]).2)
  end.
Proof.
  apply (play_move_after_legal_move (start_board (Board := Mini.MiniBoard) false 0)
           (mkMove 12 28 None)).
  apply (bool_decide_eq_true_1 (mkMove 12 28 None ∈ Mini.moves Mini.initial)).
  vm_compute. reflexivity.
Defined.
